(** * FlyCamp console: initialisation and launch orchestration

    A shallow embedding of [static/js/console.js]: the connection-check
    runner [runConnectionCheckAndStart], the replay of stored results
    [showStoredInitResultsSequentially], the two pollers of
    [proceedAfterPreview], [openOverlay], [retryConnectionCheck] and the
    card click handler.

    The script runs on the browser's single-threaded event loop.  Every
    [await] and every [setTimeout] is a suspension point; the code that
    follows it is modelled as a [Task] held in the [pending] list of the
    state and executed when the event loop delivers the corresponding
    timer or network completion.  Between two suspension points the code
    runs to completion, which is one application of [resume_timer] or
    [resume_net].  Effects on the page and on the network are appended to
    the [log] of the state, in the order they happen.

    The file holds two copies of the script.  The second one adds logging;
    its card handler also checks the elements it writes to and returns
    early, without recording the game, when [data-game-id] is missing or
    not a number.  The model follows the first copy, where the handler
    records whatever [parseInt] returns.

    Around this core, the modules [Board] ([showLeaderboard]), [Done]
    ([checkGameDone]), [Scan] ([beginAutoScan], [confirmPlayer],
    [backToHome]), [Dom] ([goToPage] and the two rule displays) and
    [Slider] ([updateActiveCard]) embed the rest of the script, each with
    the state it needs, and [Page] adds the progress button of the preview
    overlay to the console. *)

From Stdlib Require Import ZArith List Ascii String Bool Lia PeanoNat.
From Stdlib Require Import DecimalString DecimalZ QArith Qabs.
Close Scope Q_scope.
Import ListNotations.
Open Scope string_scope.
Open Scope list_scope.
#[local] Set Warnings "-register-all".

(* ------------------------------------------------------------------ *)
(** ** JavaScript values received from the server *)
(* ------------------------------------------------------------------ *)

Module Js.

(** The result of [res.json()], extended with [undefined] (the value of a
    missing property).  Numbers matter only through their truthiness, so
    they are kept as integers. *)
Inductive JVal : Type :=
| JUndef
| JNull
| JBool (b : bool)
| JNum (z : Z)
| JStr (s : string)
| JArr (items : list JVal)
| JObj (fields : list (string * JVal)).

(** [!!v] *)
Definition truthy (v : JVal) : bool :=
  match v with
  | JUndef | JNull => false
  | JBool b => b
  | JNum z => negb (z =? 0)%Z
  | JStr s => negb (s =? "")
  | JArr _ | JObj _ => true
  end.

(** [a || b] *)
Definition or_else (a b : JVal) : JVal := if truthy a then a else b.

(** Own property of a parsed object (keys of a parsed object are distinct). *)
Fixpoint assoc (k : string) (fields : list (string * JVal)) : JVal :=
  match fields with
  | [] => JUndef
  | (k', v) :: rest => if k' =? k then v else assoc k rest
  end.

(** [v.k] for the property names the script reads ([steps], [success],
    [name], [ok], [message], [error]): a [TypeError] ([None]) on [null] and
    [undefined], [undefined] on every primitive and on arrays. *)
Definition get (v : JVal) (k : string) : option JVal :=
  match v with
  | JUndef | JNull => None
  | JObj fields => Some (assoc k fields)
  | JBool _ | JNum _ | JStr _ | JArr _ => Some JUndef
  end.

(** [arr.find(s => s.name === name)]: [None] is the [TypeError] raised when
    an element met before the match is [null]; [Some None] is [undefined]. *)
Fixpoint find_named (name : string) (items : list JVal) : option (option JVal) :=
  match items with
  | [] => Some None
  | s :: rest =>
      match get s "name" with
      | None => None
      | Some (JStr n) => if n =? name then Some (Some s) else find_named name rest
      | Some _ => find_named name rest
      end
  end.

(** [(data.steps || []).find(s => s.name === name)]: a truthy [steps] that
    is not an array has no [find] method. *)
Definition find_step (data : JVal) (name : string) : option (option JVal) :=
  match get data "steps" with
  | None => None
  | Some steps =>
      match or_else steps (JArr []) with
      | JArr items => find_named name items
      | _ => None
      end
  end.

(** [v.k] where [v] is known to be neither [null] nor [undefined]. *)
Definition field (v : JVal) (k : string) : JVal :=
  match get v k with
  | Some x => x
  | None => JUndef
  end.

End Js.
Import Js.

(* ------------------------------------------------------------------ *)
(** ** Session state *)
(* ------------------------------------------------------------------ *)

(** [selectedGameId]: [null] until a card is clicked, then the result of
    [parseInt(card.getAttribute('data-game-id'), 10)]. *)
Inductive GameId : Type :=
| GNull
| GNaN
| GNum (z : Z).

(** [selectedGameId || 1] *)
Definition game_or_1 (g : GameId) : Z :=
  match g with
  | GNum z => if (z =? 0)%Z then 1%Z else z
  | GNull | GNaN => 1%Z
  end.

(** [!selectedGameId] *)
Definition falsy_game (g : GameId) : bool :=
  match g with
  | GNum z => (z =? 0)%Z
  | GNull | GNaN => true
  end.

(** [selectedGameId === 2] *)
Definition is_game_2 (g : GameId) : bool :=
  match g with
  | GNum z => (z =? 2)%Z
  | GNull | GNaN => false
  end.

(** [controllerMode] *)
Inductive Mode : Type := Joystick | Gesture.

Definition toggle_mode (m : Mode) : Mode :=
  match m with Joystick => Gesture | Gesture => Joystick end.

(** [(controllerMode === 'joystick') ? 'Joystick Controller' : 'Hand Gesture Controller'] *)
Definition controller_label (m : Mode) : string :=
  match m with
  | Joystick => "Joystick Controller"
  | Gesture => "Hand Gesture Controller"
  end.

(** One entry of [results]: [{ displayName, ok, message }]. *)
Record StepResult : Type := mkStep {
  displayName : string;
  ok : bool;
  message : JVal
}.

(** [window.__initStoredResults = { results, success }] *)
Record Stored : Type := mkStored {
  results : list StepResult;
  success : bool
}.

(** Requests sent with [fetch]. *)
Inductive Request : Type :=
| ReqConnectionCheck (game_number : Z)
| ReqWriteToken (token_id : JVal)
| ReqStartGame (game_number level_number : Z).

(** Observable effects, in the order the script performs them. *)
Inductive Action : Type :=
| Fetch (r : Request)
| ClearSteps
| HideError
| ShowError
| SetStatus (text : JVal)
| AddStepRow (label : string)
| MarkRow (label : string) (ok : bool) (msg : JVal)
| GoToPage (id : string)
| OpenOverlay
| CloseOverlay
| UpdateControllerLabels
| CheckGameDone
| ConsoleError (msg : string).

(** The two places that run the launch sequence. *)
Inductive Origin : Type :=
| FromPreview   (* the timer of [maybeStart] in [proceedAfterPreview] *)
| FromCheck.    (* the tail of [runConnectionCheckAndStart] *)

(** A suspended computation: what runs when the awaited timer or request
    completes. *)
Inductive Task : Type :=
| AwaitCheck (delayStartMs : Z) (skipStart : bool)
| AwaitStepPause (delayStartMs : Z) (data : JVal) (rest : list string)
                 (acc : list StepResult) (label : string) (step : JVal)
| AwaitStartDelay
| AwaitWriteToken (o : Origin)
| AwaitStartGame (o : Origin)
| TimerWaitReady
| TimerMaybeStart
| TimerLaunch
| TimerReplayMark (stored : Stored) (idx : nat) (step : StepResult)
| TimerReplayNext (stored : Stored) (idx : nat).

Record State : Type := mkState {
  selectedGameId : GameId;
  controllerMode : Mode;
  rfidTag : JVal;
  initStarted : bool;
  initReady : bool;
  initSuccess : bool;
  initStoredResults : option Stored;
  pending : list Task;
  log : list Action
}.

(** The globals as the script declares them; the [window.__init*]
    properties are [undefined], read only through [!]. *)
Definition initial : State :=
  mkState GNull Joystick (JStr "") false false false None [] [].

Definition emit (acts : list Action) (s : State) : State :=
  mkState (selectedGameId s) (controllerMode s) (rfidTag s)
          (initStarted s) (initReady s) (initSuccess s)
          (initStoredResults s) (pending s) (log s ++ acts).

Definition push (t : Task) (s : State) : State :=
  mkState (selectedGameId s) (controllerMode s) (rfidTag s)
          (initStarted s) (initReady s) (initSuccess s)
          (initStoredResults s) (pending s ++ [t]) (log s).

Definition set_pending (p : list Task) (s : State) : State :=
  mkState (selectedGameId s) (controllerMode s) (rfidTag s)
          (initStarted s) (initReady s) (initSuccess s)
          (initStoredResults s) p (log s).

Definition set_flags (started ready succ : bool) (s : State) : State :=
  mkState (selectedGameId s) (controllerMode s) (rfidTag s)
          started ready succ
          (initStoredResults s) (pending s) (log s).

Definition set_game (g : GameId) (s : State) : State :=
  mkState g (controllerMode s) (rfidTag s)
          (initStarted s) (initReady s) (initSuccess s)
          (initStoredResults s) (pending s) (log s).

Definition set_mode (m : Mode) (s : State) : State :=
  mkState (selectedGameId s) m (rfidTag s)
          (initStarted s) (initReady s) (initSuccess s)
          (initStoredResults s) (pending s) (log s).

Definition set_token (tok : JVal) (s : State) : State :=
  mkState (selectedGameId s) (controllerMode s) tok
          (initStarted s) (initReady s) (initSuccess s)
          (initStoredResults s) (pending s) (log s).

(** The three assignments that end the loop of
    [runConnectionCheckAndStart]. *)
Definition store_result (r : Stored) (s : State) : State :=
  mkState (selectedGameId s) (controllerMode s) (rfidTag s)
          (initStarted s) true (success r)
          (Some r) (pending s) (log s).

Definition flags (s : State) : bool * bool * bool :=
  (initStarted s, initReady s, initSuccess s).

(* ------------------------------------------------------------------ *)
(** ** Connection checks: [runConnectionCheckAndStart] *)
(* ------------------------------------------------------------------ *)

(** What a [fetch] followed by [res.json()] can deliver: the request is
    rejected, the body is not JSON, or a value is parsed. *)
Inductive Resp : Type :=
| Rejected
| NotJson
| Json (data : JVal).

Definition base : list string := ["Joystick/Gesture"; "Nodes"; "Car"; "Drone"].

(** [(selectedGameId === 2) ? base : base.filter(n => n !== 'Car')] *)
Definition order (g : GameId) : list string :=
  if is_game_2 g then base else filter (fun n => negb (n =? "Car")) base.

(** The label pushed for a found step. *)
Definition step_label (m : Mode) (name : string) : string :=
  if name =? "Joystick/Gesture" then controller_label m else name.

(** [{ displayName: label, ok: !!step.ok, message: step.message || '' }];
    [step] is an object here, its properties can be read. *)
Definition step_result (label : string) (step : JVal) : StepResult :=
  mkStep label
         (truthy (field step "ok"))
         (or_else (field step "message") (JStr "")).

(** The outer [catch (e)]. *)
Definition check_failed (s : State) : State :=
  emit [ConsoleError "Init/start error:";
        SetStatus (JStr "Unexpected error during initialisation.");
        ShowError] s.

(** The launch sequence starts: [await fetch('/write_rfid_token', ...)]. *)
Definition launch_begin (o : Origin) (s : State) : State :=
  push (AwaitWriteToken o) (emit [Fetch (ReqWriteToken (rfidTag s))] s).

(** The [catch (err)] around the launch sequence. *)
Definition launch_failed (o : Origin) (s : State) : State :=
  emit [ConsoleError (match o with
                      | FromPreview => "Error starting game:"
                      | FromCheck => "Unexpected error during start:"
                      end);
        SetStatus (JStr "Unexpected error during start.");
        ShowError] s.

(** After the loop: save the results, set the flags, and in immediate mode
    report and go on to the launch. *)
Definition check_finish (delayStartMs : Z) (skipStart : bool) (data : JVal)
    (acc : list StepResult) (s : State) : State :=
  match get data "success" with
  | None => check_failed s
  | Some succ =>
      let s1 := store_result (mkStored acc (truthy succ)) s in
      if skipStart then s1
      else if negb (truthy succ) then
        emit [SetStatus (JStr "Initialisation failed."); ShowError] s1
      else
        let s2 := emit [SetStatus (JStr "Connection OK. Preparing game...")] s1 in
        if (0 <? delayStartMs)%Z then push AwaitStartDelay s2
        else launch_begin FromCheck s2
  end.

(** [for (const name of order) { ... }], up to its next [await]. *)
Fixpoint check_loop (delayStartMs : Z) (skipStart : bool) (data : JVal)
    (names : list string) (acc : list StepResult) (s : State) : State :=
  match names with
  | [] => check_finish delayStartMs skipStart data acc s
  | name :: rest =>
      match find_step data name with
      | None => check_failed s
      | Some None => check_loop delayStartMs skipStart data rest acc s
      | Some (Some step) =>
          let label := step_label (controllerMode s) name in
          let acc' := acc ++ [step_result label step] in
          if skipStart then check_loop delayStartMs skipStart data rest acc' s
          else push (AwaitStepPause delayStartMs data rest acc' label step)
                    (emit [AddStepRow label] s)
      end
  end.

(** The synchronous head of [runConnectionCheckAndStart], up to
    [await fetch('/api/connection_check', ...)]. *)
Definition runConnectionCheckAndStart (delayStartMs : Z) (skipStart : bool)
    (s : State) : State :=
  push (AwaitCheck delayStartMs skipStart)
       (emit [ClearSteps; HideError;
              SetStatus (JStr "Running connection checks...");
              Fetch (ReqConnectionCheck (game_or_1 (selectedGameId s)))] s).

(* ------------------------------------------------------------------ *)
(** ** Replay: [showStoredInitResultsSequentially] *)
(* ------------------------------------------------------------------ *)

(** [displayNext], with [idx] the index of the next step to reveal. *)
Definition displayNext (stored : Stored) (idx : nat) (s : State) : State :=
  match nth_error (results stored) idx with
  | Some step =>
      push (TimerReplayMark stored (S idx) step)
           (emit [AddStepRow (displayName step)] s)
  | None =>
      if negb (success stored) then
        emit [SetStatus (JStr "Initialisation failed."); ShowError] s
      else
        emit [SetStatus (JStr "Connection OK. Preparing game...")] s
  end.

Definition showStoredInitResultsSequentially (s : State) : State :=
  match initStoredResults s with
  | None => s
  | Some stored =>
      displayNext stored 0
        (emit [ClearSteps; HideError;
               SetStatus (JStr "Running connection checks...")] s)
  end.

(* ------------------------------------------------------------------ *)
(** ** The pollers of [proceedAfterPreview] *)
(* ------------------------------------------------------------------ *)

Definition waitReady (s : State) : State :=
  if negb (initReady s) then push TimerWaitReady s
  else showStoredInitResultsSequentially s.

Definition maybeStart (s : State) : State :=
  if negb (initReady s) then push TimerMaybeStart s
  else if negb (initSuccess s) then s
  else push TimerLaunch s.

(* ------------------------------------------------------------------ *)
(** ** Resuming a suspended computation *)
(* ------------------------------------------------------------------ *)

(** A timer has fired. *)
Definition resume_timer (t : Task) (s : State) : option State :=
  match t with
  | AwaitStepPause delayStartMs data rest acc label step =>
      Some (check_loop delayStartMs false data rest acc
              (emit [MarkRow label (ok (step_result label step))
                             (message (step_result label step))] s))
  | AwaitStartDelay => Some (launch_begin FromCheck s)
  | TimerWaitReady => Some (waitReady s)
  | TimerMaybeStart => Some (maybeStart s)
  | TimerLaunch => Some (launch_begin FromPreview s)
  | TimerReplayMark stored idx step =>
      Some (push (TimerReplayNext stored idx)
              (emit [MarkRow (displayName step) (ok step) (message step)] s))
  | TimerReplayNext stored idx => Some (displayNext stored idx s)
  | AwaitCheck _ _ | AwaitWriteToken _ | AwaitStartGame _ => None
  end.

(** A request has completed with [r]. *)
Definition resume_net (t : Task) (r : Resp) (s : State) : option State :=
  match t with
  | AwaitCheck delayStartMs skipStart =>
      match r with
      | Json data =>
          Some (check_loop delayStartMs skipStart data
                  (order (selectedGameId s)) [] s)
      | Rejected | NotJson => Some (check_failed s)
      end
  | AwaitWriteToken o =>
      match r with
      | Rejected => Some (launch_failed o s)
      | NotJson | Json _ =>
          Some (push (AwaitStartGame o)
                  (emit [Fetch (ReqStartGame (game_or_1 (selectedGameId s)) 1)] s))
      end
  | AwaitStartGame o =>
      match r with
      | Json data =>
          match get data "success" with
          | None => Some (launch_failed o s)
          | Some succ =>
              if negb (truthy succ) then
                Some (emit [SetStatus (or_else (field data "error")
                                         (JStr "Failed to launch the game."));
                            ShowError] s)
              else
                Some (emit [SetStatus (JStr "Game started. Good luck!");
                            CheckGameDone] s)
          end
      | Rejected | NotJson => Some (launch_failed o s)
      end
  | _ => None
  end.

(* ------------------------------------------------------------------ *)
(** ** User actions *)
(* ------------------------------------------------------------------ *)

(** A successful poll of [/scan_rfid] in [beginAutoScan]:
    [rfidTag = d.token_id]. *)
Definition tokenScanned (token_id : JVal) (s : State) : State :=
  set_token token_id s.

(** The click handler of a game card: record the game, show the confirm
    page, reset the initialisation flags. *)
Definition cardClick (g : GameId) (s : State) : State :=
  set_flags false false false (emit [GoToPage "page_confirm"] (set_game g s)).

(** The click handler of the logo toggle.  [updateControllerLabels]
    rewrites the text that is in the page when it runs; it does not touch
    [window.__initStoredResults]. *)
Definition toggleController (s : State) : State :=
  emit [UpdateControllerLabels] (set_mode (toggle_mode (controllerMode s)) s).

(** [openOverlay]: play the preview and start the checks in the
    background unless they were started already. *)
Definition openOverlay (s : State) : State :=
  let s1 := emit [OpenOverlay] s in
  if negb (initStarted s1) then
    runConnectionCheckAndStart 0 true (set_flags true false false s1)
  else s1.

(** [proceedAfterPreview]: both pollers are called once right away. *)
Definition proceedAfterPreview (s : State) : State :=
  maybeStart (waitReady (emit [CloseOverlay; GoToPage "page_initializing"] s)).

Definition retryConnectionCheck (s : State) : State :=
  runConnectionCheckAndStart 3000 false
    (set_flags false false false (emit [HideError] s)).

(* ------------------------------------------------------------------ *)
(** ** The event loop *)
(* ------------------------------------------------------------------ *)

Fixpoint remove_nth {A : Type} (i : nat) (l : list A) : list A :=
  match i, l with
  | _, [] => []
  | O, _ :: l' => l'
  | S i', x :: l' => x :: remove_nth i' l'
  end.

(** Take the [i]-th suspended computation out of [pending] and run it; an
    event that matches no suspended computation changes nothing. *)
Definition fire (i : nat) (k : Task -> State -> option State) (s : State)
    : State :=
  match nth_error (pending s) i with
  | None => s
  | Some t =>
      match k t (set_pending (remove_nth i (pending s)) s) with
      | Some s' => s'
      | None => s
      end
  end.

(** What the event loop can deliver.  Timers and requests complete in any
    order: the model allows every interleaving the browser can produce. *)
Inductive Event : Type :=
| TokenScanned (token_id : JVal)
| CardClick (g : GameId)
| ToggleClick
| ConfirmClick
| ProceedClick
| RetryClick
| TimerFires (i : nat)
| RequestCompletes (i : nat) (r : Resp).

Definition step (s : State) (e : Event) : State :=
  match e with
  | TokenScanned tok => tokenScanned tok s
  | CardClick g => cardClick g s
  | ToggleClick => toggleController s
  | ConfirmClick => openOverlay s
  | ProceedClick => proceedAfterPreview s
  | RetryClick => retryConnectionCheck s
  | TimerFires i => fire i resume_timer s
  | RequestCompletes i r => fire i (fun t => resume_net t r) s
  end.

Definition run (evs : list Event) (s : State) : State :=
  fold_left step evs s.

(** Requests of a log. *)
Definition is_write_token (a : Action) : bool :=
  match a with Fetch (ReqWriteToken _) => true | _ => false end.

Definition is_start_game (a : Action) : bool :=
  match a with Fetch (ReqStartGame _ _) => true | _ => false end.

Definition is_connection_check (a : Action) : bool :=
  match a with Fetch (ReqConnectionCheck _) => true | _ => false end.

Definition is_fetch (a : Action) : bool :=
  match a with Fetch _ => true | _ => false end.

Definition count (p : Action -> bool) (l : list Action) : nat :=
  List.length (filter p l).

(** The launch sequence is entered once for each token write. *)
Definition launches (s : State) : nat := count is_write_token (log s).

(* ------------------------------------------------------------------ *)
(** ** Derived notions used in the statements *)
(* ------------------------------------------------------------------ *)

(** The results the loop of [runConnectionCheckAndStart] gathers for a
    response, read off the loop body: a name whose step is missing is
    skipped, a [TypeError] ([None]) abandons the run.  In deferred mode
    ([skipStart = true]) the loop has no [await] and this is all it does
    (lemma [check_loop_deferred]). *)
Fixpoint collect_steps (m : Mode) (data : JVal) (names : list string)
    : option (list StepResult) :=
  match names with
  | [] => Some []
  | name :: rest =>
      match find_step data name with
      | None => None
      | Some None => collect_steps m data rest
      | Some (Some step) =>
          option_map (cons (step_result (step_label m name) step))
                     (collect_steps m data rest)
      end
  end.

(** The server response of the check that event [e] resumes, when [e]
    resumes the loop of a check. *)
Definition check_response (s : State) (e : Event) : option JVal :=
  match e with
  | RequestCompletes i (Json data) =>
      match nth_error (pending s) i with
      | Some (AwaitCheck _ _) => Some data
      | _ => None
      end
  | TimerFires i =>
      match nth_error (pending s) i with
      | Some (AwaitStepPause _ data _ _ _ _) => Some data
      | _ => None
      end
  | _ => None
  end.

(** A game is chosen and confirmed, the connectivity request is rejected,
    and the user proceeds to the initialising page. *)
Definition rejected_cycle (g : GameId) : list Event :=
  [CardClick g; ConfirmClick; RequestCompletes 0 Rejected; ProceedClick].

Definition both_pollers (p : list Task) : Prop :=
  p = [TimerWaitReady; TimerMaybeStart] \/ p = [TimerMaybeStart; TimerWaitReady].

(** What one stored step shows: the row is revealed, then marked. *)
Definition step_actions (r : StepResult) : list Action :=
  [AddStepRow (displayName r); MarkRow (displayName r) (ok r) (message r)].

(** The status shown after the last step. *)
Definition final_actions (succ : bool) : list Action :=
  if negb succ then [SetStatus (JStr "Initialisation failed."); ShowError]
  else [SetStatus (JStr "Connection OK. Preparing game...")].

(** Everything a replay of [st] does, in order. *)
Definition replay_actions (st : Stored) : list Action :=
  [ClearSteps; HideError; SetStatus (JStr "Running connection checks...")]
  ++ flat_map step_actions (results st) ++ final_actions (success st).

Definition is_reveal_or_mark (a : Action) : bool :=
  match a with AddStepRow _ | MarkRow _ _ _ => true | _ => false end.

(** The timers of a display started in state [s] are appended to
    [pending s]; [n] of them fire, one after the other. *)
Definition own_timers (s : State) (n : nat) : list Event :=
  repeat (TimerFires (List.length (pending s))) n.


(** Suspended computations that can still enter the launch sequence. *)
Definition may_launch (t : Task) : nat :=
  match t with
  | AwaitCheck _ skipStart => if skipStart then 0 else 1
  | AwaitStepPause _ _ _ _ _ _ | AwaitStartDelay
  | TimerMaybeStart | TimerLaunch => 1
  | _ => 0
  end.

(** Launch sequences entered so far, plus those still possible. *)
Definition potential (s : State) : nat :=
  launches s + list_sum (map may_launch (pending s)).

(** The user actions that arm a launch. *)
Definition arms_launch (e : Event) : nat :=
  match e with
  | ProceedClick | RetryClick => 1
  | _ => 0
  end.

(** Sample responses of the connectivity check. *)
Definition step_obj (name : string) (okv : bool) : JVal :=
  JObj [("name", JStr name); ("ok", JBool okv)].

Definition resp_all_ok : JVal :=
  JObj [("success", JBool true);
        ("steps", JArr [step_obj "Joystick/Gesture" true; step_obj "Nodes" true;
                        step_obj "Car" true; step_obj "Drone" true])].

Definition resp_success_but_nodes_fail : JVal :=
  JObj [("success", JBool true);
        ("steps", JArr [step_obj "Joystick/Gesture" true; step_obj "Nodes" false;
                        step_obj "Drone" true])].

Definition resp_no_car : JVal :=
  JObj [("success", JBool true);
        ("steps", JArr [step_obj "Joystick/Gesture" true; step_obj "Nodes" true;
                        step_obj "Drone" true])].

Definition resp_car_timeout : JVal :=
  JObj [("success", JBool false);
        ("steps", JArr [step_obj "Joystick/Gesture" true; step_obj "Nodes" true;
                        JObj [("name", JStr "Car"); ("ok", JBool false);
                              ("message", JStr "timeout")];
                        step_obj "Drone" true])].

(** A start-game answer reporting success. *)
Definition start_ok : Resp := Json (JObj [("success", JBool true)]).

(** The first check is rejected, the user proceeds and then retries; the
    retried check succeeds.  The events follow one timeline of the
    browser, in milliseconds after the click that calls
    [proceedAfterPreview]; timers due at the same time fire in the order
    they were set. *)
Definition retry_after_rejection : list Event :=
  rejected_cycle (GNum 1) ++
  [TimerFires 0;                            (*  150  waitReady, not ready *)
   TimerFires 0;                            (*  250  maybeStart, not ready *)
   TimerFires 0;                            (*  300  waitReady *)
   RetryClick;                              (*  400  retry, request sent *)
   RequestCompletes 2 (Json resp_all_ok);   (*  420  answer, first row shown *)
   TimerFires 1;                            (*  450  waitReady *)
   TimerFires 0;                            (*  500  maybeStart *)
   TimerFires 1;                            (*  600  waitReady *)
   TimerFires 0;                            (*  620  first row marked *)
   TimerFires 0;                            (*  750  maybeStart *)
   TimerFires 0;                            (*  750  waitReady *)
   TimerFires 0;                            (*  820  second row marked *)
   TimerFires 1;                            (*  900  waitReady *)
   TimerFires 0;                            (* 1000  maybeStart *)
   TimerFires 0;                            (* 1020  third row marked, ready,
                                                     3000 ms delay starts *)
   TimerFires 0;                            (* 1050  waitReady: replay starts *)
   TimerFires 0;                            (* 1250  maybeStart: 3000 ms timer *)
   TimerFires 1;                            (* 1250  replay, mark *)
   TimerFires 2;                            (* 1450  replay, next *)
   TimerFires 2;                            (* 1650  replay, mark *)
   TimerFires 2;                            (* 1850  replay, next *)
   TimerFires 2;                            (* 2050  replay, mark *)
   TimerFires 2;                            (* 2250  replay, final status *)
   TimerFires 0;                            (* 4020  delay over: token write *)
   RequestCompletes 1 NotJson;              (*       written: start request *)
   RequestCompletes 1 start_ok;             (*       game started *)
   TimerFires 0;                            (* 4250  timer: token write *)
   RequestCompletes 0 NotJson;              (*       written: start request *)
   RequestCompletes 0 start_ok].            (*       game started again *)

(* ------------------------------------------------------------------ *)
(** ** Further notions: what runs of the console keep invariant *)
(* ------------------------------------------------------------------ *)

(** The texts [addStepRow] can be called with: the two controller labels
    and the step names of [base] other than the controller's. *)
Definition row_labels : list string :=
  ["Joystick Controller"; "Hand Gesture Controller"; "Nodes"; "Car"; "Drone"].

Definition known_label (l : string) : bool := existsb (String.eqb l) row_labels.

Definition known_name (n : string) : bool := existsb (String.eqb n) base.

Definition labels_of_results (rs : list StepResult) : bool :=
  forallb (fun r => known_label (displayName r)) rs.

Definition labels_of_action (a : Action) : bool :=
  match a with
  | AddStepRow l | MarkRow l _ _ => known_label l
  | _ => true
  end.

Definition labels_of_task (t : Task) : bool :=
  match t with
  | AwaitStepPause _ _ rest acc label _ =>
      forallb known_name rest && labels_of_results acc && known_label label
  | TimerReplayMark stored _ step =>
      labels_of_results (results stored) && known_label (displayName step)
  | TimerReplayNext stored _ => labels_of_results (results stored)
  | _ => true
  end.

(** Every label shown, stored or about to be shown is a known one. *)
Definition labels_known (s : State) : bool :=
  forallb labels_of_action (log s)
  && forallb labels_of_task (pending s)
  && match initStoredResults s with
     | Some stored => labels_of_results (results stored)
     | None => true
     end.

(** Reading a log from the left with [w] token writes not yet followed by
    their start request: [None] when a start request comes with no token
    write before it, otherwise the writes left over at the end. *)
Fixpoint writes_left (w : nat) (l : list Action) : option nat :=
  match l with
  | [] => Some w
  | a :: rest =>
      if is_write_token a then writes_left (S w) rest
      else if is_start_game a then
        match w with
        | O => None
        | S w' => writes_left w' rest
        end
      else writes_left w rest
  end.

Definition awaits_write (t : Task) : nat :=
  match t with AwaitWriteToken _ => 1 | _ => 0 end.

(** An answer that does not report success: a rejection, a body that is
    not JSON, or JSON whose [success] is falsy. *)
Definition reports_no_success (e : Event) : bool :=
  match e with
  | RequestCompletes _ (Json data) => negb (truthy (field data "success"))
  | _ => true
  end.

(** Suspended computations that cannot reach the launch sequence as long
    as no answer reports success. *)
Definition cannot_launch (t : Task) : bool :=
  match t with
  | TimerLaunch | AwaitStartDelay | AwaitWriteToken _ | AwaitStartGame _ => false
  | AwaitStepPause _ data _ _ _ _ => negb (truthy (field data "success"))
  | _ => true
  end.

Definition is_confirm_click (e : Event) : bool :=
  match e with ConfirmClick => true | _ => false end.

Definition is_retry_click (e : Event) : bool :=
  match e with RetryClick => true | _ => false end.

Definition is_card_click (e : Event) : bool :=
  match e with CardClick _ => true | _ => false end.

Definition count_events (p : Event -> bool) (evs : list Event) : nat :=
  List.length (filter p evs).

(** Every token write of the log is either used by a start request that
    follows it or still available, and each suspended launch that waits
    for its token write has one available. *)
Definition writes_cover (s : State) (k : nat) : Prop :=
  exists c, writes_left 0 (log s) = Some c /\
            list_sum (map awaits_write (pending s)) + k <= c.

Definition no_launch_request (a : Action) : bool :=
  negb (is_write_token a) && negb (is_start_game a).

(** No success was reported so far: [initSuccess] is false, nothing
    suspended can reach the launch sequence, and no launch request was
    sent. *)
Definition never_successful (s : State) : Prop :=
  initSuccess s = false /\
  forallb cannot_launch (pending s) = true /\
  forallb no_launch_request (log s) = true.

(** Connectivity requests an event sends by itself: a retry always sends
    one, a click on the confirm button sends one when [initStarted] is
    false. *)
Definition checks_sent_by (s : State) (e : Event) : nat :=
  match e with
  | RetryClick => 1
  | ConfirmClick => if initStarted s then 0 else 1
  | _ => 0
  end.

Definition keeps_guard (e : Event) : bool :=
  negb (is_card_click e) && negb (is_retry_click e).

(* ------------------------------------------------------------------ *)
(** ** The preview overlay: [registerPreviewOverlay] *)
(* ------------------------------------------------------------------ *)

(** The console together with the state of the progress button
    [#corner-progress]: whether [proceedAfterPreview] is registered on it
    as a click listener ([{ once: true }]), and whether it takes pointer
    events ([style.pointerEvents]). *)
Record Page : Type := mkPage {
  core : State;
  armed : bool;
  clickable : bool
}.

Definition page_initial : Page := mkPage initial false false.

(** What happens on the confirm page.  [Core ConfirmClick] is the click on
    the confirm button, [Core ProceedClick] a pointer click on the
    progress button; every other [Core e] is the event [e] of the
    console. *)
Inductive PageEvent : Type :=
| VideoEnded
| CloseClick
| Core (e : Event).

Definition page_step (p : Page) (e : PageEvent) : Page :=
  match e with
  | VideoEnded =>
      (* the listener of 'ended': the button is enabled and the click
         listener added; adding it again while it is registered changes
         nothing *)
      mkPage (core p) true true
  | CloseClick =>
      (* [closeOverlay] *)
      mkPage (emit [CloseOverlay] (core p)) (armed p) (clickable p)
  | Core ConfirmClick =>
      (* [openOverlay] disables the button before it starts the checks *)
      mkPage (openOverlay (core p)) (armed p) false
  | Core ProceedClick =>
      if clickable p && armed p
      then mkPage (proceedAfterPreview (core p)) false (clickable p)
      else p
  | Core e => mkPage (step (core p) e) (armed p) (clickable p)
  end.

Definition page_run (evs : list PageEvent) (p : Page) : Page :=
  fold_left page_step evs p.

Definition is_video_ended (e : PageEvent) : bool :=
  match e with VideoEnded => true | _ => false end.

Definition is_page_retry (e : PageEvent) : bool :=
  match e with Core RetryClick => true | _ => false end.

Definition count_page_events (f : PageEvent -> bool) (evs : list PageEvent)
    : nat :=
  List.length (filter f evs).

(* ------------------------------------------------------------------ *)
(** ** The leaderboard: [showLeaderboard] *)
(* ------------------------------------------------------------------ *)

Module Board.

(** What is assigned to the name and score of a podium place. *)
Record Pod : Type := mkPod {
  pod_name : JVal;
  pod_score : JVal
}.

(** One row of the table: the rank and the two values put in the row. *)
Record Row : Type := mkRow {
  rank : nat;
  row_name : JVal;
  row_score : JVal
}.

(** The content of [#leaderboard-body]. *)
Inductive Body : Type :=
| Loading
| AllOnPodium
| Rows (rows : list Row)
| LoadError.

(** The three podium places (first, second, third) and the table. *)
Record View : Type := mkView {
  podium : list Pod;
  body : Body
}.

Definition blank : Pod := mkPod (JStr "") (JStr "").

(** The synchronous part of [showLeaderboard]: the podium is cleared and
    the table shows the loading row. *)
Definition loading : View := mkView [blank; blank; blank] Loading.

(** [(data && data.leaderboard) ? data.leaderboard : []] *)
Definition players_of (data : JVal) : JVal :=
  if truthy data then
    if truthy (field data "leaderboard") then field data "leaderboard"
    else JArr []
  else JArr [].

(** [players[i]] on an array *)
Definition at_index (players : list JVal) (i : nat) : JVal :=
  nth i players JUndef.

(** [player ? player.name : ''] and [player ? player.score : ''] *)
Definition pod_of (player : JVal) : Pod :=
  if truthy player then mkPod (field player "name") (field player "score")
  else blank.

(** [players.slice(3).map((p, i) => ...)], with [i + 4] counted up from
    [rank]; reading [p.name] of a [null] entry raises a [TypeError]
    ([None]). *)
Fixpoint table_rows (rank : nat) (rest : list JVal) : option (list Row) :=
  match rest with
  | [] => Some []
  | p :: tl =>
      match get p "name", get p "score" with
      | Some n, Some sc =>
          option_map (cons (mkRow rank n sc)) (table_rows (S rank) tl)
      | _, _ => None
      end
  end.

(** The handler of the parsed answer, for a [leaderboard] that is an
    array (or is missing); the podium is filled before the table is
    built, so a [TypeError] in the table leaves it filled and ends in the
    [catch].  Indexing a truthy [leaderboard] that is not an array is not
    modelled ([None]). *)
Definition on_data (data : JVal) : option View :=
  match players_of data with
  | JArr players =>
      let pods := map pod_of [at_index players 0; at_index players 1;
                              at_index players 2] in
      Some (if (List.length players <=? 3)%nat then mkView pods AllOnPodium
            else match table_rows 4 (skipn 3 players) with
                 | Some rows => mkView pods (Rows rows)
                 | None => mkView pods LoadError
                 end)
  | _ => None
  end.

(** The answer of [/get_leaderboard] arrives while the page shows [v]. *)
Definition on_response (r : Resp) (v : View) : option View :=
  match r with
  | Json data => on_data data
  | Rejected | NotJson => Some (mkView (podium v) LoadError)
  end.

End Board.

(* ------------------------------------------------------------------ *)
(** ** Waiting for the end of the game: [checkGameDone] *)
(* ------------------------------------------------------------------ *)

Module Done.

(** One call of [checkGameDone]: whether its interval is still set, the
    requests to [/game_done] not yet answered, the requests sent, and the
    calls of [showLeaderboard]. *)
Record Poll : Type := mkPoll {
  live : bool;
  in_flight : nat;
  sent : nat;
  shown : nat
}.

(** Right after [setInterval]. *)
Definition start : Poll := mkPoll true 0 0 0.

Inductive Ev : Type :=
| Tick                 (* 1500 ms have passed *)
| Answer (r : Resp).   (* a request completes *)

Definition step (p : Poll) (e : Ev) : Poll :=
  match e with
  | Tick =>
      (* a cleared interval does not fire; a live one sends a request
         whether or not earlier ones have been answered *)
      if live p then mkPoll true (S (in_flight p)) (S (sent p)) (shown p)
      else p
  | Answer r =>
      match in_flight p with
      | O => p
      | S n =>
          match r with
          | Json d =>
              match get d "done" with
              | Some v =>
                  if truthy v
                  then mkPoll false n (sent p) (S (shown p))
                  else mkPoll (live p) n (sent p) (shown p)
              | None => mkPoll false n (sent p) (shown p)
              end
          | Rejected | NotJson => mkPoll false n (sent p) (shown p)
          end
      end
  end.

Definition run (evs : list Ev) (p : Poll) : Poll := fold_left step evs p.

(** The answer is JSON that can be read and whose [done] is falsy. *)
Definition not_done (e : Ev) : bool :=
  match e with
  | Tick => true
  | Answer (Json d) =>
      match get d "done" with
      | Some v => negb (truthy v)
      | None => false
      end
  | Answer _ => false
  end.

Definition is_tick (e : Ev) : bool :=
  match e with Tick => true | _ => false end.

End Done.

(* ------------------------------------------------------------------ *)
(** ** Token scanning: [beginAutoScan], [confirmPlayer], [backToHome] *)
(* ------------------------------------------------------------------ *)

Module Scan.

(** The globals of the scanner and what the browser holds for it:
    [intervals] are the ids of the intervals that are set (an id is a
    positive number, [next_id] the one [setInterval] returns next),
    [in_flight] the requests to [/scan_rfid] not yet answered,
    [greetings] the 600 ms timers that will show the greeting page. *)
Record Scanner : Type := mkScanner {
  scanInterval : option nat;
  scanningActive : bool;
  intervals : list nat;
  next_id : nat;
  in_flight : nat;
  greetings : nat;
  username : JVal;
  rfidTag : JVal;
  requests : nat;
  page : string
}.

(** The script has been read; [window.onload] has not run yet. *)
Definition fresh : Scanner :=
  mkScanner None true [] 1 0 0 (JStr "") (JStr "") 0 "".

(** [scanInterval = setInterval(..., 5000)] *)
Definition beginAutoScan (s : Scanner) : Scanner :=
  mkScanner (Some (next_id s)) (scanningActive s)
            (next_id s :: intervals s) (S (next_id s))
            (in_flight s) (greetings s) (username s) (rfidTag s)
            (requests s) (page s).

(** [if (scanInterval) clearInterval(scanInterval)] *)
Definition clearScan (s : Scanner) : list nat :=
  match scanInterval s with
  | Some id => filter (fun i => negb (i =? id)%nat) (intervals s)
  | None => intervals s
  end.

Definition confirmPlayer (s : Scanner) : Scanner :=
  mkScanner (scanInterval s) false (clearScan s) (next_id s)
            (in_flight s) (greetings s) (username s) (rfidTag s)
            (requests s) "page_choose_game".

(** [window.backToHome] *)
Definition backToHome (s : Scanner) : Scanner :=
  beginAutoScan
    (mkScanner (scanInterval s) true (clearScan s) (next_id s)
               (in_flight s) (greetings s) (username s) (rfidTag s)
               (requests s) "page1").

Inductive Ev : Type :=
| ConfirmPlayer
| BackToHome
| Tick (id : nat)        (* the interval [id] fires *)
| Answer (r : Resp)      (* a scan request completes *)
| Greet.                 (* a 600 ms timer fires *)

Definition step (s : Scanner) (e : Ev) : Scanner :=
  match e with
  | ConfirmPlayer => confirmPlayer s
  | BackToHome => backToHome s
  | Tick id =>
      if existsb (Nat.eqb id) (intervals s) && scanningActive s then
        mkScanner (scanInterval s) (scanningActive s) (intervals s)
                  (next_id s) (S (in_flight s)) (greetings s)
                  (username s) (rfidTag s) (S (requests s)) (page s)
      else s
  | Answer r =>
      match in_flight s with
      | O => s
      | S n =>
          let quiet :=
            mkScanner (scanInterval s) (scanningActive s) (intervals s)
                      (next_id s) n (greetings s)
                      (username s) (rfidTag s) (requests s) (page s) in
          match r with
          | Json d =>
              match get d "success" with
              | Some v =>
                  if truthy v then
                    mkScanner (scanInterval s) (scanningActive s)
                              (intervals s) (next_id s) n (S (greetings s))
                              (field d "name") (field d "token_id")
                              (requests s) (page s)
                  else quiet
              | None => quiet
              end
          | Rejected | NotJson => quiet
          end
      end
  | Greet =>
      match greetings s with
      | O => s
      | S n =>
          mkScanner (scanInterval s) (scanningActive s) (intervals s)
                    (next_id s) (in_flight s) n
                    (username s) (rfidTag s) (requests s) "page2"
      end
  end.

Definition run (evs : list Ev) (s : Scanner) : Scanner := fold_left step evs s.

(** [window.onload] has called [beginAutoScan]. *)
Definition loaded : Scanner := beginAutoScan fresh.

Definition is_back_to_home (e : Ev) : bool :=
  match e with BackToHome => true | _ => false end.

(** At most the interval recorded in [scanInterval] is set, and ids not
    yet handed out are not set. *)
Definition tidy (s : Scanner) : Prop :=
  (intervals s = [] \/
   exists id, scanInterval s = Some id /\ intervals s = [id]) /\
  (forall id, scanInterval s = Some id -> id < next_id s).

End Scan.

(* ------------------------------------------------------------------ *)
(** ** Pages and rules: [goToPage], [updateConfirmPageRules],
       [updateInitPageRules] *)
(* ------------------------------------------------------------------ *)

Module Dom.

(** An element of the document, as far as [goToPage] looks at it: its id
    (empty when the element has none), whether it has the class [screen],
    whether it has the class [active]. *)
Record Elem : Type := mkElem {
  eid : string;
  is_screen : bool;
  active : bool
}.

(** [qsa('.screen').forEach(s => s.classList.remove('active'))] *)
Definition hide_screens (els : list Elem) : list Elem :=
  map (fun e => if is_screen e then mkElem (eid e) true false else e) els.

(** [if (pageEl) pageEl.classList.add('active')], where [pageEl] is the
    first element of the document, in tree order, whose id [sel] accepts;
    nothing is done when there is none. *)
Fixpoint activate_first (sel : string -> bool) (els : list Elem)
    : list Elem :=
  match els with
  | [] => []
  | e :: rest =>
      if sel (eid e) then mkElem (eid e) (is_screen e) true :: rest
      else e :: activate_first sel rest
  end.

(** [document.getElementById(pageId)] looks for the element whose id is
    [pageId]; an element without id is never found. *)
Definition has_id (pageId : string) (i : string) : bool :=
  negb (pageId =? "") && (i =? pageId).

(** The older script ([part_000]). *)
Module Part000.

(** [goToPage(pageId)], on the classes of the document. *)
Definition goToPage (pageId : string) (els : list Elem) : list Elem :=
  activate_first (has_id pageId) (hide_screens els).

End Part000.

Definition code (c : ascii) : nat := nat_of_ascii c.

(** [A-Za-z_] *)
Definition is_name_start (c : ascii) : bool :=
  ((65 <=? code c) && (code c <=? 90))%nat
  || ((97 <=? code c) && (code c <=? 122))%nat
  || (code c =? 95)%nat.

(** [A-Za-z0-9_-] *)
Definition is_name_char (c : ascii) : bool :=
  is_name_start c
  || ((48 <=? code c) && (code c <=? 57))%nat
  || (code c =? 45)%nat.

Fixpoint all_chars (p : ascii -> bool) (s : string) : bool :=
  match s with
  | EmptyString => true
  | String c rest => p c && all_chars p rest
  end.

(** The ids that, written after [#], are the id selector of themselves: a
    letter or an underscore followed by letters, digits, hyphens and
    underscores. *)
Definition plain_id (id : string) : bool :=
  match id with
  | EmptyString => false
  | String c rest => is_name_start c && all_chars is_name_char rest
  end.

(** ASCII lower case. *)
Definition lower_char (c : ascii) : ascii :=
  if ((65 <=? code c) && (code c <=? 90))%nat
  then ascii_of_nat (code c + 32) else c.

Fixpoint lower (s : string) : string :=
  match s with
  | EmptyString => EmptyString
  | String c rest => String (lower_char c) (lower rest)
  end.

(** Whether the selector [`#${id}`], for a plain [id], selects an element
    with id [i]: the ids are the same; in a document in quirks mode they
    are compared without regard to the case of ASCII letters. *)
Definition selects (quirks : bool) (id : string) (i : string) : bool :=
  if quirks then lower i =? lower id else i =? id.

(** [goToPage(id)] of [console.js], on the classes of the document:
    [qs(`#${id}`)] is the first element the selector selects.  [None]
    when [id] is not plain: the text after [#] is then not the id
    selector of [id] (it can select by something else, or be no selector
    at all, in which case [querySelector] throws after the screens were
    hidden), and the call is not modelled. *)
Definition goToPage (quirks : bool) (id : string) (els : list Elem)
    : option (list Elem) :=
  if plain_id id
  then Some (activate_first (selects quirks id) (hide_screens els))
  else None.


(** What [goToPage] of [console.js] calls after that, by page. *)
Inductive Hook : Type :=
| CentreOnSecondCard
| UpdateConfirmPageRules
| UpdateInitPageRules.

Definition hooks (id : string) : list Hook :=
  (if id =? "page_choose_game" then [CentreOnSecondCard] else [])
  ++ (if id =? "page_confirm" then [UpdateConfirmPageRules] else [])
  ++ (if id =? "page_initializing" then [UpdateInitPageRules] else []).

Definition shown (e : Elem) : bool := is_screen e && active e.

(** [selectedGameId] turned into text by a template literal or a property
    access (the decimal numeral, for the integers the model holds). *)
Definition game_text (g : GameId) : string :=
  match g with
  | GNull => "null"
  | GNaN => "NaN"
  | GNum z => NilEmpty.string_of_int (Z.to_int z)
  end.

Definition rulesIds : list string := ["rules-1"; "rules-2"; "rules-3"].

(** [updateConfirmPageRules]: for each rule set, whether it gets the class
    [hidden]: [id !== `rules-${selectedGameId}`]. *)
Definition confirm_rules (g : GameId) : list (string * bool) :=
  map (fun id => (id, negb (id =? ("rules-" ++ game_text g)%string))) rulesIds.

(** The rule sets the confirm page shows. *)
Definition confirm_visible (g : GameId) : list string :=
  map fst (filter (fun r => negb (snd r)) (confirm_rules g)).

Definition rulesMap : list (string * string) :=
  [("1", "rules-1"); ("2", "rules-2"); ("3", "rules-3")].

Fixpoint lookup (k : string) (m : list (string * string)) : option string :=
  match m with
  | [] => None
  | (k', v) :: rest => if k' =? k then Some v else lookup k rest
  end.

(** [updateInitPageRules]: [rulesMap[selectedGameId] || 'rules-1'], the
    rule set copied into the initialising page. *)
Definition init_rules_source (g : GameId) : string :=
  match lookup (game_text g) rulesMap with
  | Some id => id
  | None => "rules-1"
  end.

End Dom.

(* ------------------------------------------------------------------ *)
(** ** The card slider: [updateActiveCard] *)
(* ------------------------------------------------------------------ *)

Module Slider.

(** The layout values [updateActiveCard] reads.  [offsetLeft],
    [offsetWidth] and [clientWidth] are integers in the browser;
    [scrollLeft] is a number that need not be whole. *)
Record Card : Type := mkCard {
  offsetLeft : Z;
  offsetWidth : Z;
  has_video : bool
}.

Record Track : Type := mkTrack {
  scrollLeft : Q;
  clientWidth : Z
}.

Definition whole (q : Q) : bool := (Qden (Qred q) =? 1)%positive.

Definition small (z : Z) : bool := (Z.abs z <=? 2 ^ 31)%Z.

(** The layouts on which the double-precision arithmetic of the script (a
    halving, a sum, a difference, an absolute value, a comparison) is
    exact, so that it is the arithmetic of the rationals: [scrollLeft] is
    whole and every value has magnitude at most 2^31. *)
Definition exact (t : Track) (cards : list Card) : bool :=
  whole (scrollLeft t) && small (Qnum (Qred (scrollLeft t)))
  && small (clientWidth t)
  && forallb (fun c => small (offsetLeft c) && small (offsetWidth c)) cards.

(** [slider.scrollLeft + slider.clientWidth / 2] *)
Definition centre (t : Track) : Q :=
  (scrollLeft t + inject_Z (clientWidth t) / 2)%Q.

(** [Math.abs(card.offsetLeft + card.offsetWidth / 2 - centre)] *)
Definition dist (t : Track) (c : Card) : Q :=
  Qabs (inject_Z (offsetLeft c) + inject_Z (offsetWidth c) / 2 - centre t)%Q.

(** [dist < minDist], with [None] for [Infinity]. *)
Definition closer (d : Q) (minDist : option Q) : bool :=
  match minDist with
  | None => true
  | Some m => if Qlt_le_dec d m then true else false
  end.

(** The first [forEach]: [i] is the index of the card looked at. *)
Fixpoint scan (t : Track) (cards : list Card) (i : nat)
    (closest : option nat) (minDist : option Q) : option nat :=
  match cards with
  | [] => closest
  | c :: rest =>
      if closer (dist t c) minDist
      then scan t rest (S i) (Some i) (Some (dist t c))
      else scan t rest (S i) closest minDist
  end.

Definition closest_card (t : Track) (cards : list Card) : option nat :=
  scan t cards 0 None None.

(** What happens to the video of a card. *)
Inductive VideoCmd : Type :=
| Play
| PauseAndRewind
| NoVideo.

(** The second [forEach]: the class [is-active] of each card and what is
    done with its video. *)
Fixpoint mark (closest : option nat) (cards : list Card) (i : nat)
    : list (bool * VideoCmd) :=
  match cards with
  | [] => []
  | c :: rest =>
      (match closest with
       | Some k =>
           if (i =? k)%nat
           then (true, if has_video c then Play else NoVideo)
           else (false, if has_video c then PauseAndRewind else NoVideo)
       | None => (false, if has_video c then PauseAndRewind else NoVideo)
       end) :: mark closest rest (S i)
  end.

(** [updateActiveCard], on an exact layout.  [None] on every other
    layout: the doubles of the script may round there, which is not
    modelled. *)
Definition updateActiveCard (t : Track) (cards : list Card)
    : option (list (bool * VideoCmd)) :=
  if exact t cards then Some (mark (closest_card t cards) cards 0)
  else None.

End Slider.

(** The card chosen so far is the first of the closest cards seen. *)
Definition first_closest (t : Slider.Track) (seen : list Slider.Card)
    (k : nat) (m : Q) : Prop :=
  exists c, nth_error seen k = Some c /\ m = Slider.dist t c /\
    (forall j c', nth_error seen j = Some c' ->
                  (Slider.dist t c <= Slider.dist t c')%Q) /\
    (forall j c', j < k -> nth_error seen j = Some c' ->
                  (Slider.dist t c < Slider.dist t c')%Q).

(** When [initReady] is set, a result is stored and [initSuccess] is its
    [success]. *)
Definition ready_has_result (s : State) : Prop :=
  initReady s = false \/
  exists stored, initStoredResults s = Some stored /\
                 initSuccess s = success stored.

(** The events of the usual course after a background check has stored a
    result with [k + 1] steps and reported success: the click on the
    progress button, the 2 * (k + 1) replay timers of 200 ms, the 3000 ms
    launch timer, and the two answers of the launch, with nothing else
    pending. *)
Definition proceed_and_launch (k : nat) (written : Resp) (started : JVal)
    : list Event :=
  [ProceedClick; TimerFires 0; TimerFires 1]
  ++ repeat (TimerFires 1) (2 * k)
  ++ [TimerFires 0; RequestCompletes 0 written;
      RequestCompletes 0 (Json started)].

(* ------------------------------------------------------------------ *)
(** ** Basic facts about the state and the event loop *)
(* ------------------------------------------------------------------ *)

Section LoopFacts.

Lemma emit_emit (a b : list Action) (s : State) :
  emit b (emit a s) = emit (a ++ b) s.
Proof. unfold emit; simpl. now rewrite app_assoc. Qed.

Lemma emit_nil (s : State) : emit [] s = s.
Proof. destruct s; unfold emit; simpl. now rewrite app_nil_r. Qed.

Lemma nth_error_last {A : Type} (l : list A) (x : A) :
  nth_error (l ++ [x]) (List.length l) = Some x.
Proof. induction l; simpl; auto. Qed.

Lemma remove_nth_last {A : Type} (l : list A) (x : A) :
  remove_nth (List.length l) (l ++ [x]) = l.
Proof. induction l; simpl; auto. now rewrite IHl. Qed.

(** The computation suspended last is found at the end of [pending]. *)
Lemma fire_pushed (k : Task -> State -> option State) (t : Task)
    (s s' : State) (n : nat) :
  n = List.length (pending s) ->
  k t s = Some s' ->
  fire n k (push t s) = s'.
Proof.
  intros -> H. unfold fire. simpl.
  rewrite nth_error_last, remove_nth_last.
  replace (set_pending (pending s) (push t s)) with s.
  - now rewrite H.
  - destruct s; reflexivity.
Qed.

Lemma run_app (e1 e2 : list Event) (s : State) :
  run (e1 ++ e2) s = run e2 (run e1 s).
Proof. unfold run. apply fold_left_app. Qed.

Lemma run_cons (e : Event) (es : list Event) (s : State) :
  run (e :: es) s = run es (step s e).
Proof. reflexivity. Qed.

Lemma count_app (p : Action -> bool) (l1 l2 : list Action) :
  count p (l1 ++ l2) = count p l1 + count p l2.
Proof. unfold count. now rewrite filter_app, length_app. Qed.

End LoopFacts.

(* ------------------------------------------------------------------ *)
(** ** Retry *)
(* ------------------------------------------------------------------ *)

(** C8.  Every call of [retryConnectionCheck] sets [initStarted],
    [initReady] and [initSuccess] to false and only then issues the
    connectivity check: the check runs from a state whose three flags are
    false, its request is the last effect of the call, and the flags are
    still false when the call returns. *)
Theorem retry_resets_flags_before_check (s : State) :
  exists s0,
    flags s0 = (false, false, false) /\
    retryConnectionCheck s = runConnectionCheckAndStart 3000 false s0 /\
    log s0 = log s ++ [HideError] /\
    count is_connection_check (log s0) = count is_connection_check (log s) /\
    log (retryConnectionCheck s) =
      log s0 ++ [ClearSteps; HideError;
                 SetStatus (JStr "Running connection checks...");
                 Fetch (ReqConnectionCheck (game_or_1 (selectedGameId s)))] /\
    pending (retryConnectionCheck s) = pending s ++ [AwaitCheck 3000 false] /\
    flags (retryConnectionCheck s) = (false, false, false).
Proof.
  exists (set_flags false false false (emit [HideError] s)).
  repeat split; try reflexivity.
  cbn [log set_flags emit]. rewrite count_app.
  cbn. apply Nat.add_0_r.
Qed.

(* ------------------------------------------------------------------ *)
(** ** The game number sent to the server *)
(* ------------------------------------------------------------------ *)

(** C9.  When [selectedGameId] is [null], [NaN] or [0], the connectivity
    check request carries [game_number = 1], in both modes, and so does
    the start-game request of both launch paths. *)
Theorem falsy_game_sends_game_1 (s : State) (delayStartMs : Z)
    (skipStart : bool) (o : Origin) (r : Resp) :
  falsy_game (selectedGameId s) = true ->
  r <> Rejected ->
  log (runConnectionCheckAndStart delayStartMs skipStart s) =
    log s ++ [ClearSteps; HideError;
              SetStatus (JStr "Running connection checks...");
              Fetch (ReqConnectionCheck 1)] /\
  resume_net (AwaitWriteToken o) r s =
    Some (push (AwaitStartGame o) (emit [Fetch (ReqStartGame 1 1)] s)).
Proof.
  intros Hg Hr.
  assert (E : game_or_1 (selectedGameId s) = 1%Z).
  { destruct (selectedGameId s) as [| |z]; simpl in *; auto.
    now rewrite Hg. }
  split.
  - unfold runConnectionCheckAndStart; simpl. now rewrite E.
  - destruct r; simpl; try congruence; now rewrite E.
Qed.

Lemma falsy_game_sends_game_1_witness :
  log (runConnectionCheckAndStart 0 true initial) =
    log initial ++ [ClearSteps; HideError;
              SetStatus (JStr "Running connection checks...");
              Fetch (ReqConnectionCheck 1)] /\
  resume_net (AwaitWriteToken FromPreview) NotJson initial =
    Some (push (AwaitStartGame FromPreview)
            (emit [Fetch (ReqStartGame 1 1)] initial)).
Proof.
  apply (falsy_game_sends_game_1 initial 0 true FromPreview NotJson).
  - reflexivity.
  - discriminate.
Defined.

(* ------------------------------------------------------------------ *)
(** ** A rejected connectivity check *)
(* ------------------------------------------------------------------ *)

(** While [initReady] is false the two pollers only re-arm themselves. *)
Lemma pollers_spin (ts : list nat) :
  forall s : State,
    initReady s = false ->
    both_pollers (pending s) ->
    initReady (run (map TimerFires ts) s) = false /\
    both_pollers (pending (run (map TimerFires ts) s)) /\
    log (run (map TimerFires ts) s) = log s /\
    initSuccess (run (map TimerFires ts) s) = initSuccess s /\
    initStoredResults (run (map TimerFires ts) s) = initStoredResults s.
Proof.
  induction ts as [|i ts IH]; intros s Hr Hp.
  - simpl. auto.
  - cbn [map]. rewrite run_cons.
    assert (Hs : initReady (step s (TimerFires i)) = false /\
                 both_pollers (pending (step s (TimerFires i))) /\
                 log (step s (TimerFires i)) = log s /\
                 initSuccess (step s (TimerFires i)) = initSuccess s /\
                 initStoredResults (step s (TimerFires i)) = initStoredResults s).
    { unfold step, fire, both_pollers in *.
      destruct Hp as [Hp|Hp]; rewrite Hp;
        destruct i as [|[|i]]; cbn [nth_error remove_nth resume_timer];
        unfold waitReady, maybeStart; cbn; rewrite ?Hr; cbn;
        try rewrite Hp; auto 10.
      all: destruct i; cbn; rewrite ?Hp; auto 10. }
    destruct Hs as (Hr' & Hp' & Hl & Hsu & Hst).
    destruct (IH _ Hr' Hp') as (A & B & C & D & E).
    repeat split; auto; congruence.
Qed.

(** C1.  When the connectivity request is rejected, no result is stored
    and the error state is shown, but [initReady] stays false: whatever
    timers fire afterwards, both pollers of [proceedAfterPreview] are
    still waiting and nothing more has happened. *)
Theorem rejected_check_never_ready (g : GameId) (ts : list nat) :
  let s := run (rejected_cycle g ++ map TimerFires ts) initial in
  initReady s = false /\
  initSuccess s = false /\
  initStoredResults s = None /\
  both_pollers (pending s) /\
  log s = [GoToPage "page_confirm"; OpenOverlay; ClearSteps; HideError;
           SetStatus (JStr "Running connection checks...");
           Fetch (ReqConnectionCheck (game_or_1 g));
           ConsoleError "Init/start error:";
           SetStatus (JStr "Unexpected error during initialisation.");
           ShowError; CloseOverlay; GoToPage "page_initializing"].
Proof.
  cbv zeta. rewrite run_app.
  set (s0 := run (rejected_cycle g) initial).
  assert (Hr : initReady s0 = false) by reflexivity.
  assert (Hp : both_pollers (pending s0)) by (left; reflexivity).
  destruct (pollers_spin ts s0 Hr Hp) as (A & B & C & D & E).
  repeat split; assumption.
Qed.

(* ------------------------------------------------------------------ *)
(** ** What a check stores *)
(* ------------------------------------------------------------------ *)

Lemma get_field (v : JVal) (k k' : string) (x : JVal) :
  get v k = Some x -> get v k' = Some (field v k').
Proof. unfold field; destruct v; simpl; congruence. Qed.

Lemma collect_steps_success (m : Mode) (data : JVal) (names : list string)
    (rs : list StepResult) :
  names <> [] ->
  collect_steps m data names = Some rs ->
  get data "success" = Some (field data "success").
Proof.
  intros Hn H. destruct names as [|n rest]; [congruence|].
  simpl in H. unfold find_step in H.
  destruct (get data "steps") eqn:E; [|discriminate].
  eapply get_field; eauto.
Qed.

(** In deferred mode the loop runs to its end without suspending. *)
Lemma check_loop_deferred (d : Z) (data : JVal) (names : list string) :
  forall (acc : list StepResult) (s : State),
    check_loop d true data names acc s =
    match collect_steps (controllerMode s) data names with
    | Some rs => check_finish d true data (acc ++ rs) s
    | None => check_failed s
    end.
Proof.
  induction names as [|n rest IH]; intros acc s; simpl.
  - now rewrite app_nil_r.
  - destruct (find_step data n) as [[step|]|]; auto.
    rewrite IH.
    destruct (collect_steps (controllerMode s) data rest); simpl; auto.
    now rewrite <- app_assoc.
Qed.

Lemma order_not_nil (g : GameId) : order g <> [].
Proof. unfold order; destruct (is_game_2 g); discriminate. Qed.

(** The response of a background check, in one step. *)
Lemma deferred_response (d : Z) (data : JVal) (s : State) :
  resume_net (AwaitCheck d true) (Json data) s =
  Some match collect_steps (controllerMode s) data (order (selectedGameId s)) with
       | Some rs => store_result (mkStored rs (truthy (field data "success"))) s
       | None => check_failed s
       end.
Proof.
  simpl. rewrite check_loop_deferred.
  destruct (collect_steps _ _ _) eqn:E; auto.
  unfold check_finish.
  rewrite (collect_steps_success _ _ _ _ (order_not_nil _) E). reflexivity.
Qed.

Lemma check_failed_not_store (s : State) (r : Stored) :
  check_failed s <> store_result r s.
Proof.
  intros H. apply (f_equal log) in H. simpl in H.
  apply (f_equal (@List.length Action)) in H.
  rewrite length_app in H. simpl in H. lia.
Qed.

(** A background check that stored [rs] gathered exactly [collect_steps]. *)
Lemma deferred_stored (d : Z) (data : JVal) (s : State)
    (rs : list StepResult) (b : bool) :
  check_loop d true data (order (selectedGameId s)) [] s =
    store_result (mkStored rs b) s ->
  collect_steps (controllerMode s) data (order (selectedGameId s)) = Some rs /\
  b = truthy (field data "success").
Proof.
  intros H.
  pose proof (deferred_response d data s) as R. simpl in R.
  rewrite H in R. injection R as R.
  destruct (collect_steps _ _ _) as [rs'|].
  - apply (f_equal initStoredResults) in R. simpl in R.
    injection R as -> ->. auto.
  - symmetry in R. now apply check_failed_not_store in R.
Qed.

Ltac is_plain x :=
  lazymatch x with
  | context [if _ then _ else _] => fail
  | context [match _ with Some _ => _ | None => _ end] => fail
  | _ => idtac
  end.

Ltac split_ifs :=
  repeat (cbn;
          match goal with
          | |- context [if ?b then _ else _] => is_plain b; destruct b eqn:?
          | |- context [match ?x with Some _ => _ | None => _ end] =>
              is_plain x; destruct x eqn:?
          end);
  cbn in *.

Ltac unfold_handlers :=
  unfold tokenScanned, cardClick, toggleController, openOverlay, proceedAfterPreview,
    retryConnectionCheck, runConnectionCheckAndStart, maybeStart, waitReady,
    showStoredInitResultsSequentially, displayNext, launch_begin,
    launch_failed, check_failed.

(** Every resumption of the check loop either leaves the store and the
    flags alone (it suspends again, or a [TypeError] ends it) or stores a
    result whose [success] is the truthiness of [data.success]. *)
Lemma check_loop_store (d : Z) (skip : bool) (data : JVal)
    (names : list string) :
  forall (acc : list StepResult) (s : State),
    (initStoredResults (check_loop d skip data names acc s) = initStoredResults s /\
     flags (check_loop d skip data names acc s) = flags s) \/
    (exists rs,
        initStoredResults (check_loop d skip data names acc s) =
          Some (mkStored rs (truthy (field data "success"))) /\
        initReady (check_loop d skip data names acc s) = true /\
        initSuccess (check_loop d skip data names acc s) =
          truthy (field data "success")).
Proof.
  induction names as [|n rest IH]; intros acc s.
  - cbn [check_loop]. unfold check_finish, field.
    destruct (get data "success") as [v|]; [|left; split; reflexivity].
    right. exists acc.
    destruct skip; [repeat split|].
    destruct (truthy v); cbn [negb]; [|repeat split].
    destruct (0 <? d)%Z; repeat split.
  - cbn [check_loop].
    destruct (find_step data n) as [[step|]|]; auto.
    destruct skip; auto.
Qed.

(** C2 (amended).  Whatever the event, the stored result changes only
    when the loop of a check completes, and then its [success] (and
    [initSuccess]) is the truthiness of the [success] field of that
    check's raw response; the [ok] values of the steps do not enter it.
    A background check whose loop completes stores exactly that. *)
Theorem stored_success_is_response_success (s : State) (e : Event) :
  (initStoredResults (step s e) = initStoredResults s \/
   exists data rs,
     check_response s e = Some data /\
     initStoredResults (step s e) =
       Some (mkStored rs (truthy (field data "success"))) /\
     initReady (step s e) = true /\
     initSuccess (step s e) = truthy (field data "success")) /\
  (forall d data rs,
      collect_steps (controllerMode s) data (order (selectedGameId s)) = Some rs ->
      resume_net (AwaitCheck d true) (Json data) s =
        Some (store_result (mkStored rs (truthy (field data "success"))) s)).
Proof.
  split.
  2:{ intros d data rs H. rewrite deferred_response, H. reflexivity. }
  destruct e as [tok|g| | | | |i|i r]; cbn [step].
  1-6: left; unfold_handlers; split_ifs; congruence.
  - unfold fire. cbn [check_response].
    destruct (nth_error (pending s) i) as [t|]; [|left; reflexivity].
    destruct t; cbn [resume_timer];
      try (left; unfold_handlers; split_ifs; congruence).
    match goal with
    | |- context [check_loop ?a ?b ?c ?d ?e ?f] =>
        destruct (check_loop_store a b c d e f) as [[H _]|(rs & H1 & H2 & H3)]
    end.
    + left. rewrite H. reflexivity.
    + right. eauto 6.
  - unfold fire. cbn [check_response].
    destruct (nth_error (pending s) i) as [t|]; [|left; reflexivity].
    destruct t; cbn [resume_net]; try (left; reflexivity);
      destruct r as [| |data];
      try (left; unfold_handlers; split_ifs; congruence).
    match goal with
    | |- context [check_loop ?a ?b ?c ?d ?e ?f] =>
        destruct (check_loop_store a b c d e f) as [[H _]|(rs & H1 & H2 & H3)]
    end.
    + left. rewrite H. reflexivity.
    + right. eauto 6.
Qed.

Lemma stored_success_is_response_success_witness :
  resume_net (AwaitCheck 0 true) (Json resp_success_but_nodes_fail) initial =
    Some (store_result
            (mkStored [mkStep "Joystick Controller" true (JStr "");
                       mkStep "Nodes" false (JStr "");
                       mkStep "Drone" true (JStr "")] true) initial).
Proof.
  apply (proj2 (stored_success_is_response_success initial ToggleClick)
           0%Z resp_success_but_nodes_fail).
  reflexivity.
Defined.

(** C2 (as stated) fails: the server answers [success: true] with a
    failed step; the stored result reports success although a step of the
    filtered list is not ok. *)
Lemma stored_success_not_all_steps_ok :
  exists r,
    initStoredResults
      (run [CardClick (GNum 1); ConfirmClick;
            RequestCompletes 0 (Json resp_success_but_nodes_fail)] initial)
    = Some r /\
    success r = true /\
    forallb ok (results r) = false.
Proof. eexists. repeat split. Qed.

(* ------------------------------------------------------------------ *)
(** ** The vehicle step *)
(* ------------------------------------------------------------------ *)

Lemma is_game_2_iff (g : GameId) : is_game_2 g = true <-> g = GNum 2.
Proof.
  destruct g as [| |z]; simpl; split; try discriminate.
  - intros H. apply Z.eqb_eq in H. now subst.
  - intros H. injection H as ->. reflexivity.
Qed.

Lemma order_cases (g : GameId) :
  (g = GNum 2 /\ order g = ["Joystick/Gesture"; "Nodes"; "Car"; "Drone"]) \/
  (g <> GNum 2 /\ order g = ["Joystick/Gesture"; "Nodes"; "Drone"]).
Proof.
  unfold order. destruct (is_game_2 g) eqn:E.
  - left. split; [now apply is_game_2_iff|reflexivity].
  - right. split; [|reflexivity].
    intros H. apply is_game_2_iff in H. congruence.
Qed.












(* ------------------------------------------------------------------ *)
(** ** The label of the controller step *)
(* ------------------------------------------------------------------ *)

(** The replay does not read [controllerMode]. *)
Lemma replay_ignores_mode (m' : Mode) (s : State) :
  showStoredInitResultsSequentially (set_mode m' s) =
  set_mode m' (showStoredInitResultsSequentially s).
Proof.
  unfold showStoredInitResultsSequentially, displayNext. cbn.
  destruct (initStoredResults s) as [st|]; [|reflexivity].
  destruct (results st); cbn; [|reflexivity].
  destruct (success st); reflexivity.
Qed.

(** C4 (amended).  The label of the controller step is resolved from
    [controllerMode] when the response of the check is processed, and is
    stored as [displayName]; the replay reveals that stored label whatever
    the mode [m'] is when the results are displayed. *)
Theorem controller_label_fixed_at_check (s : State) (d : Z)
    (data step : JVal) (rs : list StepResult) (b : bool) (m' : Mode) :
  find_step data "Joystick/Gesture" = Some (Some step) ->
  check_loop d true data (order (selectedGameId s)) [] s =
    store_result (mkStored rs b) s ->
  hd_error (map displayName rs) = Some (controller_label (controllerMode s)) /\
  log (showStoredInitResultsSequentially
         (set_mode m' (store_result (mkStored rs b) s))) =
    log s ++ [ClearSteps; HideError;
              SetStatus (JStr "Running connection checks...");
              AddStepRow (controller_label (controllerMode s))].
Proof.
  intros F H.
  apply deferred_stored in H. destruct H as [H _].
  assert (exists tl, rs = step_result (controller_label (controllerMode s)) step :: tl)
    as [tl ->].
  { destruct (order_cases (selectedGameId s)) as [[_ E]|[_ E]];
      rewrite E in H; cbn [collect_steps] in H; rewrite F in H;
      match type of H with
      | option_map _ ?c = _ => destruct c as [tl|]; [|discriminate]
      end;
      cbn in H; injection H as <-; eauto. }
  split; [reflexivity|].
  cbn. now rewrite <- app_assoc.
Qed.

Lemma controller_label_fixed_at_check_witness :
  hd_error (map displayName
              [mkStep "Joystick Controller" true (JStr "");
               mkStep "Nodes" true (JStr "");
               mkStep "Drone" true (JStr "")]) =
    Some (controller_label (controllerMode initial)) /\
  log (showStoredInitResultsSequentially
         (set_mode Gesture
            (store_result
               (mkStored [mkStep "Joystick Controller" true (JStr "");
                          mkStep "Nodes" true (JStr "");
                          mkStep "Drone" true (JStr "")] true) initial))) =
    log initial ++ [ClearSteps; HideError;
              SetStatus (JStr "Running connection checks...");
              AddStepRow (controller_label (controllerMode initial))].
Proof.
  apply (controller_label_fixed_at_check initial 0%Z resp_all_ok
           (step_obj "Joystick/Gesture" true) _ true Gesture);
    reflexivity.
Defined.

(** C4 (as stated) fails: the check completes in joystick mode, the
    controller toggle is clicked, then the results are replayed.  The mode
    at display time is the gesture mode, the row revealed carries the
    joystick label, and no row carries the label of the current mode. *)
Lemma replayed_label_is_the_stored_one :
  let s := run [CardClick (GNum 1); ConfirmClick;
                RequestCompletes 0 (Json resp_all_ok);
                ToggleClick; ProceedClick] initial in
  controllerMode s = Gesture /\
  In (AddStepRow "Joystick Controller") (log s) /\
  ~ In (AddStepRow (controller_label (controllerMode s))) (log s).
Proof.
  cbv zeta. split; [reflexivity|]. split.
  - vm_compute. tauto.
  - vm_compute. intros H.
    repeat (destruct H as [H|H]; [discriminate|]). exact H.
Qed.

(* ------------------------------------------------------------------ *)
(** ** Replay of a stored result *)
(* ------------------------------------------------------------------ *)

Lemma skipn_cons_nth {A : Type} (l : list A) :
  forall (i : nat) (x : A) (rest : list A),
    skipn i l = x :: rest ->
    nth_error l i = Some x /\ skipn (S i) l = rest.
Proof.
  induction l as [|a l IH]; intros i x rest H.
  - destruct i; discriminate.
  - destruct i as [|i].
    + simpl in H. injection H as -> ->. auto.
    + simpl in H. apply IH in H. exact H.
Qed.

Lemma skipn_nil_nth {A : Type} (l : list A) :
  forall i : nat, skipn i l = [] -> nth_error l i = None.
Proof.
  induction l as [|a l IH]; intros i H.
  - destruct i; reflexivity.
  - destruct i as [|i]; [discriminate|]. simpl in *. auto.
Qed.

(** From index [idx] on, [displayNext] and its two timers per step show
    the remaining steps and the final status, and leave no timer behind. *)
Lemma replay_from (st : Stored) (rest : list StepResult) :
  forall (idx : nat) (s : State),
    skipn idx (results st) = rest ->
    run (own_timers s (2 * List.length rest)) (displayNext st idx s) =
    emit (flat_map step_actions rest ++ final_actions (success st)) s.
Proof.
  induction rest as [|r rest IH]; intros idx s H.
  - apply skipn_nil_nth in H. unfold displayNext. rewrite H. cbn.
    unfold final_actions. destruct (negb (success st)); reflexivity.
  - apply skipn_cons_nth in H. destruct H as [Hn Hs].
    unfold displayNext at 1. rewrite Hn.
    replace (2 * List.length (r :: rest)) with (S (S (2 * List.length rest)))
      by (simpl; lia).
    unfold own_timers. cbn [repeat]. rewrite !run_cons.
    cbn [step].
    erewrite (fire_pushed resume_timer) by reflexivity.
    erewrite (fire_pushed resume_timer) by reflexivity.
    change (repeat (TimerFires (List.length (pending s))) (2 * List.length rest))
      with (own_timers (emit [MarkRow (displayName r) (ok r) (message r)]
                        (emit [AddStepRow (displayName r)] s))
                       (2 * List.length rest)).
    rewrite (IH (S idx) _ Hs).
    rewrite !emit_emit. reflexivity.
Qed.

(** In immediate mode the loop reveals and marks each gathered step, one
    timer per step, and then finishes with the gathered results. *)
Lemma immediate_display (d : Z) (data : JVal) (names : list string) :
  forall (acc rs : list StepResult) (s : State),
    collect_steps (controllerMode s) data names = Some rs ->
    run (own_timers s (List.length rs)) (check_loop d false data names acc s) =
    check_finish d false data (acc ++ rs) (emit (flat_map step_actions rs) s).
Proof.
  induction names as [|n rest IH]; intros acc rs s H.
  - simpl in H. injection H as <-. cbn. now rewrite app_nil_r, emit_nil.
  - cbn [collect_steps] in H. cbn [check_loop].
    destruct (find_step data n) as [[found|]|]; [| |discriminate].
    + destruct (collect_steps (controllerMode s) data rest) as [rs'|] eqn:E;
        [|discriminate].
      cbn in H. injection H as <-.
      unfold own_timers. cbn [List.length repeat]. rewrite run_cons.
      cbn [step].
      erewrite (fire_pushed resume_timer) by reflexivity.
      match goal with
      | |- run _ (check_loop _ _ _ _ _ ?s1) = _ =>
          change (repeat (TimerFires (List.length (pending s))) (List.length rs'))
            with (own_timers s1 (List.length rs'));
          rewrite (IH _ rs' s1 E)
      end.
      rewrite !emit_emit, <- app_assoc. reflexivity.
    + now apply IH.
Qed.

(** C6.  Replaying the stored result [st] runs to its end on its own
    timers, sends no request, and reveals and marks exactly the stored
    steps, in their order, before the final status; the state is otherwise
    unchanged.  It is the sequence the response [data] the result was
    recorded from produces when it is displayed live. *)
Theorem replay_reproduces_stored (s : State) (st : Stored) :
  initStoredResults s = Some st ->
  run (own_timers s (2 * List.length (results st)))
      (showStoredInitResultsSequentially s) = emit (replay_actions st) s /\
  filter is_fetch (replay_actions st) = [] /\
  filter is_reveal_or_mark (replay_actions st) =
    flat_map step_actions (results st) /\
  (forall (d : Z) (data : JVal) (s0 : State),
      collect_steps (controllerMode s0) data (order (selectedGameId s0)) =
        Some (results st) ->
      run (own_timers s0 (List.length (results st)))
          (check_loop d false data (order (selectedGameId s0)) [] s0) =
      check_finish d false data (results st)
        (emit (flat_map step_actions (results st)) s0)).
Proof.
  intros H. repeat split.
  - unfold showStoredInitResultsSequentially. rewrite H.
    match goal with
    | |- run _ (displayNext _ _ ?s1) = _ =>
        change (own_timers s (2 * List.length (results st)))
          with (own_timers s1 (2 * List.length (results st)))
    end.
    rewrite (replay_from st (results st) 0 _ eq_refl).
    rewrite emit_emit. reflexivity.
  - unfold replay_actions. rewrite !filter_app. cbn [filter is_fetch app].
    replace (filter is_fetch (final_actions (success st))) with (@nil Action)
      by (unfold final_actions; destruct (success st); reflexivity).
    rewrite app_nil_r.
    induction (results st) as [|r l IH]; [reflexivity|exact IH].
  - unfold replay_actions. rewrite !filter_app.
    cbn [filter is_reveal_or_mark app].
    replace (filter is_reveal_or_mark (final_actions (success st)))
      with (@nil Action)
      by (unfold final_actions; destruct (success st); reflexivity).
    rewrite app_nil_r.
    induction (results st) as [|r l IH]; [reflexivity|].
    cbn. now rewrite IH.
  - intros d data s0 E.
    apply (immediate_display d data _ [] _ s0 E).
Qed.

Lemma replay_reproduces_stored_witness :
  let st := mkStored [mkStep "Joystick Controller" true (JStr "");
                      mkStep "Nodes" false (JStr "timeout")] false in
  let s := store_result st initial in
  run (own_timers s 4) (showStoredInitResultsSequentially s) =
    emit (replay_actions st) s /\
  filter is_fetch (replay_actions st) = [] /\
  filter is_reveal_or_mark (replay_actions st) =
    flat_map step_actions (results st) /\
  (forall (d : Z) (data : JVal) (s0 : State),
      collect_steps (controllerMode s0) data (order (selectedGameId s0)) =
        Some (results st) ->
      run (own_timers s0 (List.length (results st)))
          (check_loop d false data (order (selectedGameId s0)) [] s0) =
      check_finish d false data (results st)
        (emit (flat_map step_actions (results st)) s0)).
Proof.
  exact (replay_reproduces_stored
           (store_result
              (mkStored [mkStep "Joystick Controller" true (JStr "");
                         mkStep "Nodes" false (JStr "timeout")] false) initial)
           (mkStored [mkStep "Joystick Controller" true (JStr "");
                      mkStep "Nodes" false (JStr "timeout")] false)
           eq_refl).
Defined.

(* ------------------------------------------------------------------ *)
(** ** The launch sequence *)
(* ------------------------------------------------------------------ *)

(** C7.  Both launch paths enter [launch_begin].  It first sends the
    token write, with the token scanned last, and nothing else; the
    start-game request is sent only when the token write has completed,
    and it carries the selected game [g] (1 when none is selected, that
    is when [selectedGameId] is [null], [NaN] or 0) and level 1.  When the
    answer has a falsy [success] the error is shown and nothing is left
    pending (no retry); when it is truthy the completion polling starts.
    When the token write is rejected no start request is sent, and when
    the start request is rejected or its answer cannot be read nothing
    more is sent: the [catch] reports the error and nothing is left
    pending. *)
Theorem launch_sequence_in_order (s : State) (o : Origin) (r1 : Resp)
    (data succ : JVal) (g : Z) :
  r1 <> Rejected ->
  get data "success" = Some succ ->
  (selectedGameId s = GNum g /\ g <> 0%Z) \/
  (g = 1%Z /\ (selectedGameId s = GNull \/ selectedGameId s = GNaN \/
               selectedGameId s = GNum 0)) ->
  resume_timer TimerLaunch s = Some (launch_begin FromPreview s) /\
  resume_timer AwaitStartDelay s = Some (launch_begin FromCheck s) /\
  launch_begin o s =
    push (AwaitWriteToken o) (emit [Fetch (ReqWriteToken (rfidTag s))] s) /\
  run [RequestCompletes (List.length (pending s)) r1] (launch_begin o s) =
    push (AwaitStartGame o)
      (emit [Fetch (ReqWriteToken (rfidTag s));
             Fetch (ReqStartGame g 1)] s) /\
  run [RequestCompletes (List.length (pending s)) r1;
       RequestCompletes (List.length (pending s)) (Json data)]
      (launch_begin o s) =
    emit ([Fetch (ReqWriteToken (rfidTag s));
           Fetch (ReqStartGame g 1)] ++
          if truthy succ
          then [SetStatus (JStr "Game started. Good luck!"); CheckGameDone]
          else [SetStatus (or_else (field data "error")
                             (JStr "Failed to launch the game."));
                ShowError]) s /\
  run [RequestCompletes (List.length (pending s)) Rejected]
      (launch_begin o s) =
    emit [Fetch (ReqWriteToken (rfidTag s));
          ConsoleError (match o with
                        | FromPreview => "Error starting game:"
                        | FromCheck => "Unexpected error during start:"
                        end);
          SetStatus (JStr "Unexpected error during start.");
          ShowError] s /\
  (forall r2 : Resp,
      r2 = Rejected \/ r2 = NotJson \/
      (exists d, r2 = Json d /\ get d "success" = None) ->
      run [RequestCompletes (List.length (pending s)) r1;
           RequestCompletes (List.length (pending s)) r2]
          (launch_begin o s) =
        emit [Fetch (ReqWriteToken (rfidTag s));
              Fetch (ReqStartGame g 1);
              ConsoleError (match o with
                            | FromPreview => "Error starting game:"
                            | FromCheck => "Unexpected error during start:"
                            end);
              SetStatus (JStr "Unexpected error during start.");
              ShowError] s).
Proof.
  intros Hr Hd Hg.
  assert (G : game_or_1 (selectedGameId s) = g).
  { destruct Hg as [[-> Hz]|[-> [->|[->| ->]]]]; try reflexivity.
    cbn. apply Z.eqb_neq in Hz. now rewrite Hz. }
  assert (W : step (launch_begin o s) (RequestCompletes (List.length (pending s)) r1) =
              push (AwaitStartGame o)
                (emit [Fetch (ReqWriteToken (rfidTag s));
                       Fetch (ReqStartGame g 1)] s)).
  { unfold launch_begin. cbn [step].
    erewrite fire_pushed; [| reflexivity |].
    2:{ destruct r1; [congruence| |]; reflexivity. }
    rewrite emit_emit. cbn [selectedGameId emit]. rewrite G. reflexivity. }
  repeat split.
  - rewrite run_cons, W. reflexivity.
  - rewrite !run_cons, W. cbn [run fold_left step].
    destruct (truthy succ) eqn:T;
      (erewrite fire_pushed;
       [| reflexivity | cbn [resume_net]; rewrite Hd, T; reflexivity]);
      rewrite emit_emit; reflexivity.
  - unfold launch_begin. cbn [run fold_left step].
    erewrite fire_pushed; [| reflexivity | reflexivity].
    unfold launch_failed. rewrite emit_emit. reflexivity.
  - intros r2 H2. rewrite !run_cons, W. cbn [run fold_left step].
    erewrite fire_pushed; [| reflexivity |].
    2:{ cbn [resume_net].
        destruct H2 as [->|[->|(d & -> & Hn)]]; [| |rewrite Hn]; reflexivity. }
    unfold launch_failed. rewrite emit_emit. reflexivity.
Qed.

Lemma launch_sequence_in_order_witness :
  let s := run [TokenScanned (JStr "04A1B2C3"); CardClick (GNum 2)] initial in
  run [RequestCompletes 0 NotJson] (launch_begin FromPreview s) =
    push (AwaitStartGame FromPreview)
      (emit [Fetch (ReqWriteToken (JStr "04A1B2C3"));
             Fetch (ReqStartGame 2 1)] s) /\
  run [RequestCompletes 0 NotJson;
       RequestCompletes 0 (Json (JObj [("success", JBool false)]))]
      (launch_begin FromPreview s) =
    emit [Fetch (ReqWriteToken (JStr "04A1B2C3")); Fetch (ReqStartGame 2 1);
          SetStatus (JStr "Failed to launch the game."); ShowError] s /\
  run [RequestCompletes 0 Rejected] (launch_begin FromPreview s) =
    emit [Fetch (ReqWriteToken (JStr "04A1B2C3"));
          ConsoleError "Error starting game:";
          SetStatus (JStr "Unexpected error during start.");
          ShowError] s.
Proof.
  intros s.
  destruct (launch_sequence_in_order s FromPreview NotJson
              (JObj [("success", JBool false)]) (JBool false) 2%Z)
    as (_ & _ & _ & A & B & C & _).
  - discriminate.
  - reflexivity.
  - left. split; [reflexivity|discriminate].
  - exact (conj A (conj B C)).
Defined.

(* ------------------------------------------------------------------ *)
(** ** The [initStarted] guard *)
(* ------------------------------------------------------------------ *)

Lemma check_loop_started (d : Z) (skip : bool) (data : JVal)
    (names : list string) :
  forall (acc : list StepResult) (s : State),
    initStarted (check_loop d skip data names acc s) = initStarted s.
Proof.
  induction names as [|n rest IH]; intros acc s; cbn [check_loop].
  - unfold check_finish. unfold_handlers. split_ifs; reflexivity.
  - destruct (find_step data n) as [[found|]|]; auto.
    destruct skip; auto.
Qed.

(** Only [openOverlay] sets [initStarted]. *)
Lemma step_keeps_guard (s : State) (e : Event) :
  e <> ConfirmClick ->
  initStarted s = false ->
  initStarted (step s e) = false.
Proof.
  intros He Hs.
  destruct e as [tok|g| | | | |i|i r]; cbn [step]; try congruence.
  1-5: unfold_handlers; split_ifs; congruence.
  - unfold fire.
    destruct (nth_error (pending s) i) as [t|]; [|assumption].
    destruct t; cbn [resume_timer]; try assumption;
      try rewrite check_loop_started;
      unfold_handlers; split_ifs; congruence.
  - unfold fire.
    destruct (nth_error (pending s) i) as [t|]; [|assumption].
    destruct t; cbn [resume_net]; try assumption; destruct r;
      try rewrite check_loop_started;
      unfold_handlers; split_ifs; congruence.
Qed.

Lemma run_keeps_guard (evs : list Event) :
  forall s : State,
    Forall (fun e => e <> ConfirmClick) evs ->
    initStarted s = false ->
    initStarted (run evs s) = false.
Proof.
  induction evs as [|e evs IH]; intros s Hf Hs; [exact Hs|].
  inversion Hf; subst. rewrite run_cons.
  apply IH; auto. now apply step_keeps_guard.
Qed.

(** C10.  After [retryConnectionCheck], [initStarted] is false, and it
    stays false through every event other than a click on the confirm
    button; [openOverlay] then finds the guard open and starts a check of
    its own.  Right after the retry this is a second request while the
    retry's check is still awaited. *)
Theorem retry_leaves_guard_open (s : State) (evs : list Event) :
  Forall (fun e => e <> ConfirmClick) evs ->
  initStarted (retryConnectionCheck s) = false /\
  initStarted (run evs (retryConnectionCheck s)) = false /\
  openOverlay (run evs (retryConnectionCheck s)) =
    runConnectionCheckAndStart 0 true
      (set_flags true false false
         (emit [OpenOverlay] (run evs (retryConnectionCheck s)))) /\
  pending (openOverlay (retryConnectionCheck s)) =
    pending s ++ [AwaitCheck 3000 false; AwaitCheck 0 true] /\
  count is_connection_check (log (openOverlay (retryConnectionCheck s))) =
    count is_connection_check (log s) + 2.
Proof.
  intros Hf.
  assert (G : initStarted (run evs (retryConnectionCheck s)) = false)
    by (apply run_keeps_guard; [assumption|reflexivity]).
  repeat split.
  - exact G.
  - unfold openOverlay. cbn [initStarted emit]. rewrite G. reflexivity.
  - cbn. now rewrite <- app_assoc.
  - cbn [openOverlay retryConnectionCheck runConnectionCheckAndStart log
           emit push set_flags initStarted negb].
    rewrite !count_app. cbn. lia.
Qed.

Lemma retry_leaves_guard_open_witness :
  initStarted (retryConnectionCheck initial) = false /\
  initStarted (run [TimerFires 0; ProceedClick] (retryConnectionCheck initial))
    = false /\
  openOverlay (run [TimerFires 0; ProceedClick] (retryConnectionCheck initial)) =
    runConnectionCheckAndStart 0 true
      (set_flags true false false
         (emit [OpenOverlay]
            (run [TimerFires 0; ProceedClick] (retryConnectionCheck initial)))) /\
  pending (openOverlay (retryConnectionCheck initial)) =
    pending initial ++ [AwaitCheck 3000 false; AwaitCheck 0 true] /\
  count is_connection_check (log (openOverlay (retryConnectionCheck initial))) =
    count is_connection_check (log initial) + 2.
Proof.
  apply (retry_leaves_guard_open initial [TimerFires 0; ProceedClick]).
  repeat constructor; discriminate.
Defined.

(* ------------------------------------------------------------------ *)
(** ** How often the launch sequence is entered *)
(* ------------------------------------------------------------------ *)

Lemma may_launch_removed (p : list Task) :
  forall (i : nat) (t : Task),
    nth_error p i = Some t ->
    list_sum (map may_launch p) =
    may_launch t + list_sum (map may_launch (remove_nth i p)).
Proof.
  induction p as [|a p IH]; intros i t H.
  - destruct i; discriminate.
  - destruct i as [|i]; simpl in *.
    + injection H as ->. reflexivity.
    + rewrite (IH i t H). lia.
Qed.

Ltac potential_tac :=
  unfold potential, launches;
  cbn [log pending emit push set_pending store_result set_flags set_game
       set_mode set_token];
  rewrite ?count_app, ?map_app, ?list_sum_app;
  cbn [count filter is_write_token List.length map list_sum fold_right
       may_launch];
  lia.

Lemma check_loop_potential (d : Z) (skip : bool) (data : JVal)
    (names : list string) :
  forall (acc : list StepResult) (s : State),
    potential (check_loop d skip data names acc s) <=
    potential s + (if skip then 0 else 1).
Proof.
  induction names as [|n rest IH]; intros acc s; cbn [check_loop].
  - unfold check_finish. unfold_handlers.
    destruct (get data "success") as [v|]; [|potential_tac].
    destruct skip; [potential_tac|].
    destruct (negb (truthy v)); [potential_tac|].
    destruct (0 <? d)%Z; potential_tac.
  - destruct (find_step data n) as [[found|]|]; auto.
    + destruct skip; auto. potential_tac.
    + unfold_handlers. potential_tac.
Qed.

Ltac potential_in H :=
  unfold potential, launches in H;
  cbn [log pending emit push set_pending store_result set_flags set_game
       set_mode set_token] in H;
  rewrite ?count_app, ?map_app, ?list_sum_app in H;
  cbn [count filter is_write_token List.length map list_sum fold_right
       may_launch] in H.

(** No event raises the potential, except that [proceedAfterPreview] and
    [retryConnectionCheck] each arm one launch. *)
Lemma step_potential (s : State) (e : Event) :
  potential (step s e) <= potential s + arms_launch e.
Proof.
  destruct e as [tok|g| | | | |i|i r]; cbn [step arms_launch].
  - unfold_handlers. potential_tac.
  - unfold_handlers. potential_tac.
  - unfold_handlers. potential_tac.
  - unfold_handlers. cbn [initStarted emit].
    destruct (negb (initStarted s)); potential_tac.
  - unfold_handlers. cbn [initReady initSuccess initStoredResults emit push].
    destruct (initReady s) eqn:R; cbn [negb].
    + destruct (initStoredResults s) as [st|];
        [destruct (nth_error (results st) 0);
         [|destruct (negb (success st))]|];
        cbn [initReady initSuccess emit push]; rewrite ?R; cbn [negb];
        destruct (initSuccess s); cbn [negb]; potential_tac.
    + cbn [initReady initSuccess emit push]. rewrite ?R. cbn [negb].
      potential_tac.
  - unfold_handlers. potential_tac.
  - unfold fire.
    destruct (nth_error (pending s) i) as [t|] eqn:E; [|lia].
    pose proof (may_launch_removed _ _ _ E) as M.
    destruct t; cbn [resume_timer]; cbn [may_launch] in M;
      try lia.
    + match goal with
      | |- context [check_loop ?a ?b ?c ?d ?e ?f] =>
          pose proof (check_loop_potential a b c d e f) as L
      end.
      potential_in L. unfold potential, launches. lia.
    + unfold_handlers. potential_tac.
    + unfold_handlers.
      cbn [initReady initStoredResults set_pending emit].
      destruct (negb (initReady s)); [potential_tac|].
      destruct (initStoredResults s) as [st|]; [|potential_tac].
      destruct (nth_error (results st) 0); [potential_tac|].
      destruct (negb (success st)); potential_tac.
    + unfold_handlers. cbn [initReady initSuccess set_pending].
      destruct (negb (initReady s)); [potential_tac|].
      destruct (negb (initSuccess s)); potential_tac.
    + unfold_handlers. potential_tac.
    + potential_tac.
    + unfold_handlers.
      destruct (nth_error (results stored) idx); [potential_tac|].
      destruct (negb (success stored)); potential_tac.
  - unfold fire.
    destruct (nth_error (pending s) i) as [t|] eqn:E; [|lia].
    pose proof (may_launch_removed _ _ _ E) as M.
    destruct t; cbn [resume_net]; cbn [may_launch] in M;
      try lia.
    + destruct r as [| |data]; try (unfold_handlers; potential_tac).
      match goal with
      | |- context [check_loop ?a ?b ?c ?d ?e ?f] =>
          pose proof (check_loop_potential a b c d e f) as L
      end.
      potential_in L. unfold potential, launches.
      destruct skipStart; lia.
    + destruct r; unfold_handlers; potential_tac.
    + destruct r as [| |data]; try (unfold_handlers; potential_tac).
      destruct (get data "success") as [v|]; [|unfold_handlers; potential_tac].
      destruct (negb (truthy v)); potential_tac.
Qed.

(** Along every run, the launch sequence is entered at most once for each
    [proceedAfterPreview] and each [retryConnectionCheck], on top of what
    was already possible at the start. *)
Lemma launches_bounded (evs : list Event) :
  forall s : State,
    potential (run evs s) <= potential s + list_sum (map arms_launch evs).
Proof.
  induction evs as [|e evs IH]; intros s.
  - simpl. lia.
  - rewrite run_cons. cbn [map list_sum fold_right].
    pose proof (step_potential s e). pose proof (IH (step s e)).
    unfold list_sum in *. lia.
Qed.

Lemma launches_bounded_from_start (evs : list Event) :
  launches (run evs initial) <= list_sum (map arms_launch evs).
Proof.
  pose proof (launches_bounded evs initial) as H.
  unfold potential in H at 1. cbn in H. unfold launches in *.
  cbn in *. lia.
Qed.

(** C3 (the code at the failing input).  The first check is rejected, so
    the pollers of [proceedAfterPreview] are still waiting when the user
    retries.  The retried check succeeds: its own tail enters the launch
    sequence, and so does the timer armed by [maybeStart].  Two checks
    were requested, one of them produced a result, and that result
    launched the game twice. *)
Theorem retry_after_rejection_launches_twice :
  let s := run retry_after_rejection initial in
  count is_connection_check (log s) = 2 /\
  launches s = 2 /\
  count is_start_game (log s) = 2 /\
  filter is_fetch (log s) =
    [Fetch (ReqConnectionCheck 1); Fetch (ReqConnectionCheck 1);
     Fetch (ReqWriteToken (JStr "")); Fetch (ReqStartGame 1 1);
     Fetch (ReqWriteToken (JStr "")); Fetch (ReqStartGame 1 1)] /\
  pending s = [] /\
  initStoredResults (run (rejected_cycle (GNum 1)) initial) = None /\
  list_sum (map arms_launch retry_after_rejection) = 2.
Proof. vm_compute. repeat split. Qed.

(* ------------------------------------------------------------------ *)
(** ** The scenarios of the console, run on the model *)
(* ------------------------------------------------------------------ *)

(** Game 2, the vehicle step times out: the four steps are stored in
    display order, the result is a failure, and after the replay nothing
    is pending: no launch is attempted. *)
Example vehicle_game_car_timeout :
  let s := run ([CardClick (GNum 2); ConfirmClick;
                 RequestCompletes 0 (Json resp_car_timeout); ProceedClick]
                ++ repeat (TimerFires 0) 8) initial in
  initStoredResults s =
    Some (mkStored [mkStep "Joystick Controller" true (JStr "");
                    mkStep "Nodes" true (JStr "");
                    mkStep "Car" false (JStr "timeout");
                    mkStep "Drone" true (JStr "")] false) /\
  launches s = 0 /\
  pending s = [] /\
  log s = [GoToPage "page_confirm"; OpenOverlay; ClearSteps; HideError;
           SetStatus (JStr "Running connection checks...");
           Fetch (ReqConnectionCheck 2);
           CloseOverlay; GoToPage "page_initializing"]
          ++ replay_actions
               (mkStored [mkStep "Joystick Controller" true (JStr "");
                          mkStep "Nodes" true (JStr "");
                          mkStep "Car" false (JStr "timeout");
                          mkStep "Drone" true (JStr "")] false).
Proof. vm_compute. repeat split. Qed.

(** Game 1, all four steps ok in the response: the vehicle step is left
    out, and one launch follows the replay. *)
Example other_game_drops_car :
  let s := run ([CardClick (GNum 1); ConfirmClick;
                 RequestCompletes 0 (Json resp_all_ok); ProceedClick]
                ++ TimerFires 0 :: repeat (TimerFires 1) 5
                ++ [TimerFires 0; RequestCompletes 0 NotJson;
                    RequestCompletes 0 start_ok]) initial in
  option_map (fun r => map displayName (results r)) (initStoredResults s) =
    Some ["Joystick Controller"; "Nodes"; "Drone"] /\
  launches s = 1 /\
  count is_start_game (log s) = 1 /\
  pending s = [].
Proof. vm_compute. repeat split. Qed.

(** Game 2, the response has no vehicle step: the step is skipped. *)
Example vehicle_game_without_car_step :
  resume_net (AwaitCheck 0 true) (Json resp_no_car)
    (set_game (GNum 2) initial) =
  Some (store_result
          (mkStored [mkStep "Joystick Controller" true (JStr "");
                     mkStep "Nodes" true (JStr "");
                     mkStep "Drone" true (JStr "")] true)
          (set_game (GNum 2) initial)).
Proof. reflexivity. Qed.

(** A [null] response body, or a [null] entry before the wanted step,
    raises a [TypeError]: the run ends in the outer [catch]. *)
Example null_response_is_caught :
  resume_net (AwaitCheck 0 true) (Json JNull) initial =
    Some (check_failed initial) /\
  resume_net (AwaitCheck 0 true)
    (Json (JObj [("success", JBool true);
                 ("steps", JArr [JNull; step_obj "Nodes" true])])) initial =
    Some (check_failed initial).
Proof. split; reflexivity. Qed.

(* ------------------------------------------------------------------ *)
(** ** The labels of the step rows *)
(* ------------------------------------------------------------------ *)

Lemma forallb_remove_nth {A : Type} (p : A -> bool) (l : list A) :
  forall i : nat, forallb p l = true -> forallb p (remove_nth i l) = true.
Proof.
  induction l as [|a l IH]; intros i H; destruct i; simpl in *; auto;
    apply andb_true_iff in H; destruct H as [Ha Hl]; auto.
  rewrite Ha. simpl. auto.
Qed.

Lemma forallb_nth_error {A : Type} (p : A -> bool) (l : list A) :
  forall (i : nat) (x : A),
    forallb p l = true -> nth_error l i = Some x -> p x = true.
Proof.
  induction l as [|a l IH]; intros i x H E; destruct i; simpl in *;
    try discriminate; apply andb_true_iff in H; destruct H as [Ha Hl].
  - now injection E as <-.
  - eauto.
Qed.

Lemma known_step_label (m : Mode) (n : string) :
  known_name n = true -> known_label (step_label m n) = true.
Proof.
  unfold known_name, base. cbn [existsb]. intros H.
  repeat (apply orb_true_iff in H; destruct H as [H|H]);
    try discriminate; apply String.eqb_eq in H; subst;
    destruct m; reflexivity.
Qed.

Create HintDb labels.

Ltac andb_solve :=
  repeat (apply andb_true_iff; split); try assumption; try reflexivity.

Lemma labels_known_emit (acts : list Action) (s : State) :
  forallb labels_of_action acts = true ->
  labels_known s = true -> labels_known (emit acts s) = true.
Proof.
  unfold labels_known. cbn [log pending initStoredResults emit].
  intros Ha H. rewrite forallb_app, Ha.
  now rewrite andb_true_r.
Qed.

Lemma labels_known_push (t : Task) (s : State) :
  labels_of_task t = true ->
  labels_known s = true -> labels_known (push t s) = true.
Proof.
  unfold labels_known. cbn [log pending initStoredResults push].
  intros Ht H. rewrite forallb_app. cbn [forallb]. rewrite Ht.
  now rewrite !andb_true_r.
Qed.

Lemma labels_known_store (r : Stored) (s : State) :
  labels_of_results (results r) = true ->
  labels_known s = true -> labels_known (store_result r s) = true.
Proof.
  unfold labels_known. cbn [log pending initStoredResults store_result].
  intros Hr H. rewrite Hr.
  apply andb_true_iff in H. destruct H as [H _]. now rewrite H.
Qed.

Lemma labels_known_removed (i : nat) (s : State) :
  labels_known s = true ->
  labels_known (set_pending (remove_nth i (pending s)) s) = true.
Proof.
  unfold labels_known. cbn [log pending initStoredResults set_pending].
  intros H. apply andb_true_iff in H. destruct H as [H Hs].
  apply andb_true_iff in H. destruct H as [Hl Hp].
  now rewrite Hl, Hs, (forallb_remove_nth _ _ i Hp).
Qed.

Lemma labels_known_flags (a b c : bool) (s : State) :
  labels_known (set_flags a b c s) = labels_known s.
Proof. reflexivity. Qed.

Lemma labels_known_game (g : GameId) (s : State) :
  labels_known (set_game g s) = labels_known s.
Proof. reflexivity. Qed.

Lemma labels_known_mode (m : Mode) (s : State) :
  labels_known (set_mode m s) = labels_known s.
Proof. reflexivity. Qed.

Lemma labels_known_token (tok : JVal) (s : State) :
  labels_known (set_token tok s) = labels_known s.
Proof. reflexivity. Qed.

#[local] Hint Resolve labels_known_emit labels_known_push labels_known_store
  labels_known_removed : labels.

Ltac labels_norm :=
  rewrite ?labels_known_flags, ?labels_known_game, ?labels_known_mode,
    ?labels_known_token.

Lemma labels_known_stored (s : State) (stored : Stored) :
  labels_known s = true ->
  initStoredResults s = Some stored ->
  labels_of_results (results stored) = true.
Proof.
  unfold labels_known. intros H E. rewrite E in H.
  apply andb_true_iff in H. tauto.
Qed.

Lemma labels_known_check_failed (s : State) :
  labels_known s = true -> labels_known (check_failed s) = true.
Proof. intros H. unfold check_failed. auto with labels. Qed.

Lemma labels_known_launch_begin (o : Origin) (s : State) :
  labels_known s = true -> labels_known (launch_begin o s) = true.
Proof. intros H. unfold launch_begin. auto with labels. Qed.

Lemma labels_known_launch_failed (o : Origin) (s : State) :
  labels_known s = true -> labels_known (launch_failed o s) = true.
Proof. intros H. unfold launch_failed. auto with labels. Qed.

Lemma labels_known_check_loop (d : Z) (skip : bool) (data : JVal)
    (names : list string) :
  forall (acc : list StepResult) (s : State),
    forallb known_name names = true ->
    labels_of_results acc = true ->
    labels_known s = true ->
    labels_known (check_loop d skip data names acc s) = true.
Proof.
  induction names as [|n rest IH]; intros acc s Hn Ha Hs; cbn [check_loop].
  - unfold check_finish.
    destruct (get data "success") as [v|];
      [|now apply labels_known_check_failed].
    assert (H1 : labels_known (store_result (mkStored acc (truthy v)) s) = true)
      by auto with labels.
    destruct skip; [assumption|].
    destruct (negb (truthy v)); [auto with labels|].
    destruct (0 <? d)%Z;
      [|apply labels_known_launch_begin]; auto with labels.
  - cbn [forallb] in Hn. apply andb_true_iff in Hn. destruct Hn as [Hk Hr].
    destruct (find_step data n) as [[found|]|];
      [| auto | now apply labels_known_check_failed].
    pose proof (known_step_label (controllerMode s) n Hk) as Hl.
    assert (Ha' : labels_of_results
                    (acc ++ [step_result (step_label (controllerMode s) n) found])
                  = true).
    { unfold labels_of_results in *. rewrite forallb_app, Ha.
      unfold step_result. cbn [forallb andb displayName]. now rewrite Hl. }
    destruct skip; [auto|].
    apply labels_known_push; [|apply labels_known_emit; auto].
    + cbn [labels_of_task]. andb_solve.
    + cbn [forallb labels_of_action]. andb_solve.
Qed.

Lemma labels_known_displayNext (stored : Stored) (idx : nat) (s : State) :
  labels_of_results (results stored) = true ->
  labels_known s = true ->
  labels_known (displayNext stored idx s) = true.
Proof.
  intros Hr Hs. unfold displayNext.
  destruct (nth_error (results stored) idx) as [st|] eqn:E.
  - pose proof (forallb_nth_error _ _ _ _ Hr E) as Hl. cbn beta in Hl.
    apply labels_known_push; [|apply labels_known_emit; auto].
    + cbn [labels_of_task]. andb_solve.
    + cbn [forallb labels_of_action]. andb_solve.
  - destruct (negb (success stored)); auto with labels.
Qed.

Lemma labels_known_show (s : State) :
  labels_known s = true ->
  labels_known (showStoredInitResultsSequentially s) = true.
Proof.
  intros H. unfold showStoredInitResultsSequentially.
  destruct (initStoredResults s) as [stored|] eqn:E; [|assumption].
  apply labels_known_displayNext; [|auto with labels].
  eapply labels_known_stored; eauto.
Qed.

Lemma labels_known_waitReady (s : State) :
  labels_known s = true -> labels_known (waitReady s) = true.
Proof.
  intros H. unfold waitReady.
  destruct (negb (initReady s)); [auto with labels|].
  now apply labels_known_show.
Qed.

Lemma labels_known_maybeStart (s : State) :
  labels_known s = true -> labels_known (maybeStart s) = true.
Proof.
  intros H. unfold maybeStart.
  destruct (negb (initReady s)); [auto with labels|].
  destruct (negb (initSuccess s)); auto with labels.
Qed.

Lemma labels_known_run_check (d : Z) (skip : bool) (s : State) :
  labels_known s = true ->
  labels_known (runConnectionCheckAndStart d skip s) = true.
Proof. intros H. unfold runConnectionCheckAndStart. auto with labels. Qed.

Lemma order_known (g : GameId) : forallb known_name (order g) = true.
Proof. unfold order. destruct (is_game_2 g); reflexivity. Qed.

Lemma labels_known_step (s : State) (e : Event) :
  labels_known s = true -> labels_known (step s e) = true.
Proof.
  intros H. destruct e as [tok|g| | | | |i|i r]; cbn [step].
  - exact H.
  - unfold cardClick. labels_norm. auto with labels.
  - unfold toggleController. auto with labels.
  - unfold openOverlay. cbn zeta.
    destruct (negb (initStarted (emit [OpenOverlay] s))); [|auto with labels].
    apply labels_known_run_check. labels_norm. auto with labels.
  - unfold proceedAfterPreview.
    apply labels_known_maybeStart, labels_known_waitReady. auto with labels.
  - unfold retryConnectionCheck.
    apply labels_known_run_check. labels_norm. auto with labels.
  - unfold fire.
    destruct (nth_error (pending s) i) as [t|] eqn:E; [|assumption].
    assert (Ht : labels_of_task t = true).
    { unfold labels_known in H. apply andb_true_iff in H. destruct H as [H _].
      apply andb_true_iff in H. destruct H as [_ H].
      eapply forallb_nth_error; eauto. }
    pose proof (labels_known_removed i s H) as Hs.
    destruct t; cbn [resume_timer]; try assumption; cbn [labels_of_task] in Ht.
    + apply andb_true_iff in Ht. destruct Ht as [Ht Hl].
      apply andb_true_iff in Ht. destruct Ht as [Hr Ha].
      apply labels_known_check_loop; auto.
      apply labels_known_emit; auto.
      cbn [forallb labels_of_action]. andb_solve.
    + now apply labels_known_launch_begin.
    + now apply labels_known_waitReady.
    + now apply labels_known_maybeStart.
    + now apply labels_known_launch_begin.
    + apply andb_true_iff in Ht. destruct Ht as [Hr Hl].
      apply labels_known_push; [exact Hr|].
      apply labels_known_emit; auto.
      cbn [forallb labels_of_action]. andb_solve.
    + now apply labels_known_displayNext.
  - unfold fire.
    destruct (nth_error (pending s) i) as [t|] eqn:E; [|assumption].
    pose proof (labels_known_removed i s H) as Hs.
    destruct t; cbn [resume_net]; try assumption.
    + destruct r as [| |data]; try now apply labels_known_check_failed.
      apply labels_known_check_loop; auto. apply order_known.
    + destruct r; try now apply labels_known_launch_failed.
      all: auto with labels.
    + destruct r as [| |data]; try now apply labels_known_launch_failed.
      destruct (get data "success") as [v|];
        [|now apply labels_known_launch_failed].
      destruct (negb (truthy v)); auto with labels.
Qed.

(** X1.  Whatever the user does and whatever the server answers, the
    text put into a step row by [addStepRow] (which builds the row with
    [innerHTML]) is one of five fixed labels: no text of a response ever
    reaches it.  The same holds for the labels kept in the stored
    result. *)
Theorem row_labels_are_fixed (evs : list Event) (l : string) :
  (In (AddStepRow l) (log (run evs initial)) -> In l row_labels) /\
  (forall stored r,
      initStoredResults (run evs initial) = Some stored ->
      In r (results stored) -> In (displayName r) row_labels).
Proof.
  assert (K : forall evs s, labels_known s = true ->
                            labels_known (run evs s) = true).
  { clear. induction evs as [|e evs IH]; intros s H; [exact H|].
    rewrite run_cons. apply IH. now apply labels_known_step. }
  specialize (K evs initial eq_refl).
  assert (L : forall x, known_label x = true -> In x row_labels).
  { intros x Hx. unfold known_label in Hx.
    apply existsb_exists in Hx. destruct Hx as (y & Hy & E).
    apply String.eqb_eq in E. now subst. }
  split.
  - intros Hin. apply L.
    unfold labels_known in K. apply andb_true_iff in K. destruct K as [K _].
    apply andb_true_iff in K. destruct K as [K _].
    rewrite forallb_forall in K. exact (K _ Hin).
  - intros stored r E Hin. apply L.
    pose proof (labels_known_stored _ _ K E) as Hr.
    unfold labels_of_results in Hr. rewrite forallb_forall in Hr.
    exact (Hr _ Hin).
Qed.

Lemma row_labels_are_fixed_witness : In "Nodes" row_labels.
Proof.
  apply (proj1 (row_labels_are_fixed
                  [CardClick (GNum 1); RetryClick;
                   RequestCompletes 0 (Json resp_all_ok);
                   TimerFires 0] "Nodes")).
  vm_compute. tauto.
Defined.

(* ------------------------------------------------------------------ *)
(** ** Token writes come before start requests *)
(* ------------------------------------------------------------------ *)

Lemma writes_left_app (l1 l2 : list Action) :
  forall w : nat,
    writes_left w (l1 ++ l2) =
    match writes_left w l1 with
    | Some c => writes_left c l2
    | None => None
    end.
Proof.
  induction l1 as [|a l1 IH]; intros w; [reflexivity|].
  cbn [app writes_left].
  destruct (is_write_token a); [apply IH|].
  destruct (is_start_game a); [|apply IH].
  destruct w; [reflexivity|apply IH].
Qed.

Lemma writes_left_prefix (pre post : list Action) :
  forall w c : nat,
    writes_left w (pre ++ post) = Some c ->
    count is_start_game pre <= w + count is_write_token pre.
Proof.
  induction pre as [|a pre IH]; intros w c H; [cbn; lia|].
  cbn [app writes_left] in H. unfold count in *. cbn [filter].
  destruct (is_write_token a) eqn:W.
  - assert (is_start_game a = false) as ->
      by (destruct a as [[]| | | | | | | | | | | |]; (discriminate || reflexivity)).
    apply IH in H. cbn [List.length]. lia.
  - destruct (is_start_game a).
    + destruct w; [discriminate|]. apply IH in H. cbn [List.length]. lia.
    + apply IH in H. lia.
Qed.

Lemma task_sum_removed (f : Task -> nat) (p : list Task) :
  forall (i : nat) (t : Task),
    nth_error p i = Some t ->
    list_sum (map f p) = f t + list_sum (map f (remove_nth i p)).
Proof.
  induction p as [|a p IH]; intros i t H.
  - destruct i; discriminate.
  - destruct i as [|i]; simpl in *.
    + injection H as ->. reflexivity.
    + rewrite (IH i t H). lia.
Qed.

Lemma writes_left_quiet (acts : list Action) :
  forall c : nat,
    forallb no_launch_request acts = true -> writes_left c acts = Some c.
Proof.
  induction acts as [|a acts IH]; intros c H; [reflexivity|].
  cbn [forallb] in H. apply andb_true_iff in H. destruct H as [Ha H].
  unfold no_launch_request in Ha. apply andb_true_iff in Ha.
  destruct Ha as [Hw Hs]. apply negb_true_iff in Hw, Hs.
  cbn [writes_left]. rewrite Hw, Hs. auto.
Qed.

Lemma writes_cover_emit (acts : list Action) (s : State) (k : nat) :
  forallb no_launch_request acts = true ->
  writes_cover s k -> writes_cover (emit acts s) k.
Proof.
  intros Ha (c & Hc & Hle). exists c. cbn [log pending emit].
  rewrite writes_left_app, Hc, (writes_left_quiet _ _ Ha). auto.
Qed.

Lemma writes_cover_push (t : Task) (s : State) (k : nat) :
  writes_cover s (awaits_write t + k) -> writes_cover (push t s) k.
Proof.
  intros (c & Hc & Hle). exists c. cbn [log pending push].
  rewrite map_app, list_sum_app. cbn [map list_sum fold_right].
  split; [assumption|lia].
Qed.

Lemma writes_cover_less (s : State) (k k' : nat) :
  k' <= k -> writes_cover s k -> writes_cover s k'.
Proof. intros Hk (c & Hc & Hle). exists c. split; [assumption|lia]. Qed.

Lemma writes_cover_launch_begin (o : Origin) (s : State) (k : nat) :
  writes_cover s k -> writes_cover (launch_begin o s) k.
Proof.
  intros (c & Hc & Hle). exists (S c). unfold launch_begin.
  cbn [log pending emit push].
  rewrite writes_left_app, Hc, map_app, list_sum_app.
  cbn. split; [reflexivity|lia].
Qed.

Lemma writes_cover_check_failed (s : State) (k : nat) :
  writes_cover s k -> writes_cover (check_failed s) k.
Proof. intros H. unfold check_failed. now apply writes_cover_emit. Qed.

Lemma writes_cover_launch_failed (o : Origin) (s : State) (k : nat) :
  writes_cover s k -> writes_cover (launch_failed o s) k.
Proof. intros H. unfold launch_failed. now apply writes_cover_emit. Qed.

Lemma writes_cover_check_loop (d : Z) (skip : bool) (data : JVal)
    (names : list string) :
  forall (acc : list StepResult) (s : State),
    writes_cover s 0 ->
    writes_cover (check_loop d skip data names acc s) 0.
Proof.
  induction names as [|n rest IH]; intros acc s H; cbn [check_loop].
  - unfold check_finish.
    destruct (get data "success") as [v|];
      [|now apply writes_cover_check_failed].
    assert (H1 : writes_cover (store_result (mkStored acc (truthy v)) s) 0)
      by exact H.
    destruct skip; [assumption|].
    destruct (negb (truthy v)); [now apply writes_cover_emit|].
    destruct (0 <? d)%Z.
    + apply writes_cover_push. now apply writes_cover_emit.
    + apply writes_cover_launch_begin. now apply writes_cover_emit.
  - destruct (find_step data n) as [[found|]|];
      [| auto | now apply writes_cover_check_failed].
    destruct skip; [auto|].
    apply writes_cover_push. now apply writes_cover_emit.
Qed.

Lemma writes_cover_displayNext (stored : Stored) (idx : nat) (s : State) :
  writes_cover s 0 -> writes_cover (displayNext stored idx s) 0.
Proof.
  intros H. unfold displayNext.
  destruct (nth_error (results stored) idx).
  - apply writes_cover_push. now apply writes_cover_emit.
  - destruct (negb (success stored)); now apply writes_cover_emit.
Qed.

Lemma writes_cover_waitReady (s : State) :
  writes_cover s 0 -> writes_cover (waitReady s) 0.
Proof.
  intros H. unfold waitReady, showStoredInitResultsSequentially.
  destruct (negb (initReady s)); [now apply writes_cover_push|].
  destruct (initStoredResults s); [|assumption].
  apply writes_cover_displayNext. now apply writes_cover_emit.
Qed.

Lemma writes_cover_maybeStart (s : State) :
  writes_cover s 0 -> writes_cover (maybeStart s) 0.
Proof.
  intros H. unfold maybeStart.
  destruct (negb (initReady s)); [now apply writes_cover_push|].
  destruct (negb (initSuccess s)); [assumption|now apply writes_cover_push].
Qed.

Lemma writes_cover_run_check (d : Z) (skip : bool) (s : State) :
  writes_cover s 0 -> writes_cover (runConnectionCheckAndStart d skip s) 0.
Proof.
  intros H. unfold runConnectionCheckAndStart.
  apply writes_cover_push. now apply writes_cover_emit.
Qed.

Lemma writes_cover_removed (s : State) (i : nat) (t : Task) :
  nth_error (pending s) i = Some t ->
  writes_cover s 0 ->
  writes_cover (set_pending (remove_nth i (pending s)) s) (awaits_write t).
Proof.
  intros E (c & Hc & Hle). exists c. cbn [log pending set_pending].
  split; [assumption|].
  rewrite (task_sum_removed awaits_write _ _ _ E) in Hle. lia.
Qed.

Lemma writes_cover_step (s : State) (e : Event) :
  writes_cover s 0 -> writes_cover (step s e) 0.
Proof.
  intros H. destruct e as [tok|g| | | | |i|i r]; cbn [step].
  - exact H.
  - unfold cardClick.
    change (writes_cover (emit [GoToPage "page_confirm"] (set_game g s)) 0).
    now apply writes_cover_emit.
  - unfold toggleController. now apply writes_cover_emit.
  - unfold openOverlay. cbn zeta.
    destruct (negb (initStarted (emit [OpenOverlay] s)));
      [apply writes_cover_run_check|]; now apply writes_cover_emit.
  - unfold proceedAfterPreview.
    apply writes_cover_maybeStart, writes_cover_waitReady.
    now apply writes_cover_emit.
  - unfold retryConnectionCheck. apply writes_cover_run_check.
    change (writes_cover (emit [HideError] s) 0).
    now apply writes_cover_emit.
  - unfold fire.
    destruct (nth_error (pending s) i) as [t|] eqn:E; [|assumption].
    pose proof (writes_cover_removed s i t E H) as Hs.
    apply (writes_cover_less _ _ 0) in Hs; [|lia].
    destruct t; cbn [resume_timer]; try assumption.
    + apply writes_cover_check_loop. now apply writes_cover_emit.
    + now apply writes_cover_launch_begin.
    + now apply writes_cover_waitReady.
    + now apply writes_cover_maybeStart.
    + now apply writes_cover_launch_begin.
    + apply writes_cover_push. now apply writes_cover_emit.
    + now apply writes_cover_displayNext.
  - unfold fire.
    destruct (nth_error (pending s) i) as [t|] eqn:E; [|assumption].
    pose proof (writes_cover_removed s i t E H) as Hs.
    destruct t; cbn [resume_net]; try assumption;
      cbn [awaits_write] in Hs.
    + destruct r as [| |data]; try now apply writes_cover_check_failed.
      now apply writes_cover_check_loop.
    + destruct r; [apply writes_cover_launch_failed;
                   apply (writes_cover_less _ 1); [lia|assumption]| |].
      all: destruct Hs as (c & Hc & Hle); destruct c as [|c]; [lia|];
        exists c; cbn [log pending emit push];
        rewrite writes_left_app, Hc, map_app, list_sum_app;
        cbn [writes_left is_write_token is_start_game map list_sum fold_right
             awaits_write];
        split; [reflexivity|lia].
    + destruct r as [| |data]; try now apply writes_cover_launch_failed.
      destruct (get data "success") as [v|];
        [|now apply writes_cover_launch_failed].
      destruct (negb (truthy v)); now apply writes_cover_emit.
Qed.

(** X2.  In every run of the console, each start-game request is sent
    after a token write of its own: at any point of the log there are at
    least as many [/write_rfid_token] requests as [/api/start_game]
    requests before it. *)
Theorem start_requests_follow_token_writes (evs : list Event)
    (pre post : list Action) :
  log (run evs initial) = pre ++ post ->
  count is_start_game pre <= count is_write_token pre.
Proof.
  intros E.
  assert (K : forall evs s, writes_cover s 0 -> writes_cover (run evs s) 0).
  { clear. induction evs as [|e evs IH]; intros s H; [exact H|].
    rewrite run_cons. apply IH. now apply writes_cover_step. }
  destruct (K evs initial) as (c & Hc & _).
  { exists 0. split; [reflexivity|cbn; lia]. }
  rewrite E in Hc.
  exact (writes_left_prefix pre post 0 c Hc).
Qed.

Lemma start_requests_follow_token_writes_witness :
  count is_start_game
    (firstn 34 (log (run retry_after_rejection initial))) <=
  count is_write_token
    (firstn 34 (log (run retry_after_rejection initial))).
Proof.
  apply (start_requests_follow_token_writes retry_after_rejection _
           (skipn 34 (log (run retry_after_rejection initial)))).
  symmetry. apply firstn_skipn.
Defined.

(* ------------------------------------------------------------------ *)
(** ** No launch without a reported success *)
(* ------------------------------------------------------------------ *)

Lemma never_successful_emit (acts : list Action) (s : State) :
  forallb no_launch_request acts = true ->
  never_successful s -> never_successful (emit acts s).
Proof.
  intros Ha (H1 & H2 & H3). repeat split; cbn [log pending initSuccess emit];
    auto. now rewrite forallb_app, H3, Ha.
Qed.

Lemma never_successful_push (t : Task) (s : State) :
  cannot_launch t = true ->
  never_successful s -> never_successful (push t s).
Proof.
  intros Ht (H1 & H2 & H3). repeat split; cbn [log pending initSuccess push];
    auto. rewrite forallb_app, H2. cbn [forallb]. now rewrite Ht.
Qed.

Lemma never_successful_removed (i : nat) (s : State) :
  never_successful s ->
  never_successful (set_pending (remove_nth i (pending s)) s).
Proof.
  intros (H1 & H2 & H3). repeat split; cbn [log pending initSuccess set_pending];
    auto. now apply forallb_remove_nth.
Qed.

Lemma never_successful_check_failed (s : State) :
  never_successful s -> never_successful (check_failed s).
Proof. intros H. unfold check_failed. now apply never_successful_emit. Qed.

Lemma never_successful_check_loop (d : Z) (skip : bool) (data : JVal)
    (names : list string) :
  truthy (field data "success") = false ->
  forall (acc : list StepResult) (s : State),
    never_successful s ->
    never_successful (check_loop d skip data names acc s).
Proof.
  intros Hd.
  induction names as [|n rest IH]; intros acc s H; cbn [check_loop].
  - unfold check_finish. unfold field in Hd.
    destruct (get data "success") as [v|];
      [|now apply never_successful_check_failed].
    rewrite Hd. cbn [negb].
    assert (H1 : never_successful (store_result (mkStored acc false) s)).
    { destruct H as (H1 & H2 & H3). repeat split; assumption. }
    destruct skip; [assumption|]. now apply never_successful_emit.
  - destruct (find_step data n) as [[found|]|];
      [| auto | now apply never_successful_check_failed].
    destruct skip; [auto|].
    apply never_successful_push;
      [cbn [cannot_launch]; now rewrite Hd|now apply never_successful_emit].
Qed.

Lemma never_successful_displayNext (stored : Stored) (idx : nat) (s : State) :
  never_successful s -> never_successful (displayNext stored idx s).
Proof.
  intros H. unfold displayNext.
  destruct (nth_error (results stored) idx).
  - apply never_successful_push; [reflexivity|].
    now apply never_successful_emit.
  - destruct (negb (success stored)); now apply never_successful_emit.
Qed.

Lemma never_successful_waitReady (s : State) :
  never_successful s -> never_successful (waitReady s).
Proof.
  intros H. unfold waitReady, showStoredInitResultsSequentially.
  destruct (negb (initReady s)); [now apply never_successful_push|].
  destruct (initStoredResults s); [|assumption].
  apply never_successful_displayNext. now apply never_successful_emit.
Qed.

Lemma never_successful_maybeStart (s : State) :
  never_successful s -> never_successful (maybeStart s).
Proof.
  intros H. unfold maybeStart.
  destruct (negb (initReady s)); [now apply never_successful_push|].
  destruct H as (H1 & H2 & H3). rewrite H1. cbn [negb].
  repeat split; assumption.
Qed.

Lemma never_successful_run_check (d : Z) (skip : bool) (s : State) :
  never_successful s ->
  never_successful (runConnectionCheckAndStart d skip s).
Proof.
  intros H. unfold runConnectionCheckAndStart.
  apply never_successful_push; [reflexivity|].
  now apply never_successful_emit.
Qed.

Lemma never_successful_flags (a b : bool) (s : State) :
  never_successful s -> never_successful (set_flags a b false s).
Proof. intros (H1 & H2 & H3). repeat split; assumption. Qed.

Lemma never_successful_step (s : State) (e : Event) :
  reports_no_success e = true ->
  never_successful s -> never_successful (step s e).
Proof.
  intros He H. destruct e as [tok|g| | | | |i|i r]; cbn [step].
  - destruct H as (H1 & H2 & H3). repeat split; assumption.
  - unfold cardClick. apply never_successful_flags.
    apply never_successful_emit; [reflexivity|].
    destruct H as (H1 & H2 & H3). repeat split; assumption.
  - unfold toggleController. apply never_successful_emit; [reflexivity|].
    destruct H as (H1 & H2 & H3). repeat split; assumption.
  - unfold openOverlay. cbn zeta.
    destruct (negb (initStarted (emit [OpenOverlay] s)));
      [apply never_successful_run_check, never_successful_flags|];
      now apply never_successful_emit.
  - unfold proceedAfterPreview.
    apply never_successful_maybeStart, never_successful_waitReady.
    now apply never_successful_emit.
  - unfold retryConnectionCheck.
    apply never_successful_run_check, never_successful_flags.
    now apply never_successful_emit.
  - unfold fire.
    destruct (nth_error (pending s) i) as [t|] eqn:E; [|assumption].
    assert (Ht : cannot_launch t = true).
    { destruct H as (_ & H2 & _). eapply forallb_nth_error; eauto. }
    pose proof (never_successful_removed i s H) as Hs.
    destruct t; cbn [resume_timer]; try assumption;
      cbn [cannot_launch] in Ht; try discriminate.
    + apply negb_true_iff in Ht.
      apply never_successful_check_loop; [assumption|].
      now apply never_successful_emit.
    + now apply never_successful_waitReady.
    + now apply never_successful_maybeStart.
    + apply never_successful_push; [reflexivity|].
      now apply never_successful_emit.
    + now apply never_successful_displayNext.
  - unfold fire.
    destruct (nth_error (pending s) i) as [t|] eqn:E; [|assumption].
    assert (Ht : cannot_launch t = true).
    { destruct H as (_ & H2 & _). eapply forallb_nth_error; eauto. }
    pose proof (never_successful_removed i s H) as Hs.
    destruct t; cbn [resume_net]; try assumption;
      cbn [cannot_launch] in Ht; try discriminate.
    destruct r as [| |data]; try now apply never_successful_check_failed.
    cbn [reports_no_success] in He. apply negb_true_iff in He.
    now apply never_successful_check_loop.
Qed.

(** X3.  As long as no answer reports success (each one is a rejection,
    not JSON, or JSON with a falsy [success]), the console sends neither a
    token write nor a start-game request, whatever the user clicks and
    however the timers fire. *)
Theorem no_launch_without_reported_success (evs : list Event) :
  forallb reports_no_success evs = true ->
  launches (run evs initial) = 0 /\
  count is_start_game (log (run evs initial)) = 0 /\
  initSuccess (run evs initial) = false.
Proof.
  intros He.
  assert (K : forall evs s, forallb reports_no_success evs = true ->
                            never_successful s ->
                            never_successful (run evs s)).
  { clear. induction evs as [|e evs IH]; intros s He H; [exact H|].
    cbn [forallb] in He. apply andb_true_iff in He. destruct He as [He1 He2].
    rewrite run_cons. apply IH; [assumption|].
    now apply never_successful_step. }
  destruct (K evs initial He) as (H1 & H2 & H3).
  { repeat split; reflexivity. }
  assert (Q : forall p, (forall a, p a = true -> no_launch_request a = false) ->
                        count p (log (run evs initial)) = 0).
  { intros p Hp. unfold count.
    induction (log (run evs initial)) as [|a l IH]; [reflexivity|].
    cbn [forallb] in H3. apply andb_true_iff in H3. destruct H3 as [Ha Hl].
    cbn [filter]. destruct (p a) eqn:Pa; [|auto].
    rewrite (Hp a Pa) in Ha. discriminate. }
  repeat split; [apply Q|apply Q|assumption].
  - intros a Ha. unfold no_launch_request. now rewrite Ha.
  - intros a Ha. unfold no_launch_request. rewrite Ha.
    now rewrite andb_false_r.
Qed.

Lemma no_launch_without_reported_success_witness :
  launches (run (rejected_cycle (GNum 2) ++
                 [RetryClick; RequestCompletes 2 (Json resp_car_timeout);
                  TimerFires 2; TimerFires 0]) initial) = 0.
Proof.
  apply (no_launch_without_reported_success
           (rejected_cycle (GNum 2) ++
            [RetryClick; RequestCompletes 2 (Json resp_car_timeout);
             TimerFires 2; TimerFires 0])).
  reflexivity.
Defined.

(* ------------------------------------------------------------------ *)
(** ** When connectivity checks are sent *)
(* ------------------------------------------------------------------ *)

Ltac checks_tac :=
  cbn [log pending emit push set_pending store_result set_flags set_game
       set_mode set_token];
  rewrite ?count_app;
  cbn [count filter is_connection_check List.length];
  lia.

Lemma check_loop_checks (d : Z) (skip : bool) (data : JVal)
    (names : list string) :
  forall (acc : list StepResult) (s : State),
    count is_connection_check (log (check_loop d skip data names acc s)) =
    count is_connection_check (log s).
Proof.
  induction names as [|n rest IH]; intros acc s; cbn [check_loop].
  - unfold check_finish. unfold_handlers.
    destruct (get data "success") as [v|]; [|checks_tac].
    destruct skip; [checks_tac|].
    destruct (negb (truthy v)); [checks_tac|].
    destruct (0 <? d)%Z; checks_tac.
  - destruct (find_step data n) as [[found|]|]; auto.
    + destruct skip; auto. checks_tac.
    + unfold_handlers. checks_tac.
Qed.

Lemma step_checks (s : State) (e : Event) :
  count is_connection_check (log (step s e)) =
  count is_connection_check (log s) + checks_sent_by s e.
Proof.
  destruct e as [tok|g| | | | |i|i r]; cbn [step checks_sent_by].
  - unfold_handlers. checks_tac.
  - unfold_handlers. checks_tac.
  - unfold_handlers. checks_tac.
  - unfold_handlers. cbn [initStarted emit].
    destruct (initStarted s); cbn [negb]; checks_tac.
  - unfold_handlers. cbn [initReady initSuccess initStoredResults emit push].
    destruct (initReady s) eqn:R; cbn [negb].
    + destruct (initStoredResults s) as [st|];
        [destruct (nth_error (results st) 0);
         [|destruct (negb (success st))]|];
        cbn [initReady initSuccess emit push]; rewrite ?R; cbn [negb];
        destruct (initSuccess s); cbn [negb]; checks_tac.
    + cbn [initReady initSuccess emit push]. rewrite ?R. cbn [negb].
      checks_tac.
  - unfold_handlers. checks_tac.
  - unfold fire.
    destruct (nth_error (pending s) i) as [t|]; [|lia].
    destruct t; cbn [resume_timer]; try lia.
    + rewrite check_loop_checks. checks_tac.
    + unfold_handlers. checks_tac.
    + unfold_handlers.
      cbn [initReady initStoredResults set_pending emit].
      destruct (negb (initReady s)); [checks_tac|].
      destruct (initStoredResults s) as [st|]; [|checks_tac].
      destruct (nth_error (results st) 0); [checks_tac|].
      destruct (negb (success st)); checks_tac.
    + unfold_handlers. cbn [initReady initSuccess set_pending].
      destruct (negb (initReady s)); [checks_tac|].
      destruct (negb (initSuccess s)); checks_tac.
    + unfold_handlers. checks_tac.
    + checks_tac.
    + unfold_handlers.
      destruct (nth_error (results stored) idx); [checks_tac|].
      destruct (negb (success stored)); checks_tac.
  - unfold fire.
    destruct (nth_error (pending s) i) as [t|]; [|lia].
    destruct t; cbn [resume_net]; try lia.
    + destruct r as [| |data]; try (unfold_handlers; checks_tac).
      rewrite check_loop_checks. checks_tac.
    + destruct r; unfold_handlers; checks_tac.
    + destruct r as [| |data]; try (unfold_handlers; checks_tac).
      destruct (get data "success") as [v|]; [|unfold_handlers; checks_tac].
      destruct (negb (truthy v)); checks_tac.
Qed.

Lemma step_guard_stays (s : State) (e : Event) :
  keeps_guard e = true ->
  initStarted (step s e) = initStarted s \/ e = ConfirmClick.
Proof.
  intros He.
  destruct e as [tok|g| | | | |i|i r]; cbn [step]; try discriminate;
    try (right; reflexivity); left.
  - reflexivity.
  - reflexivity.
  - unfold_handlers. split_ifs; reflexivity.
  - unfold fire.
    destruct (nth_error (pending s) i) as [t|]; [|reflexivity].
    destruct t; cbn [resume_timer]; try reflexivity;
      try rewrite check_loop_started;
      unfold_handlers; split_ifs; reflexivity.
  - unfold fire.
    destruct (nth_error (pending s) i) as [t|]; [|reflexivity].
    destruct t; cbn [resume_net]; try reflexivity; destruct r;
      try rewrite check_loop_started;
      unfold_handlers; split_ifs; reflexivity.
Qed.

(** X4.  Once [openOverlay] has set [initStarted], and until a card is
    clicked or a retry is asked for, the guard stays set and no
    connectivity request is sent: further clicks on the confirm button,
    timers and answers send none. *)
Theorem guard_prevents_second_check (evs : list Event) :
  forall s : State,
    initStarted s = true ->
    forallb keeps_guard evs = true ->
    initStarted (run evs s) = true /\
    count is_connection_check (log (run evs s)) =
    count is_connection_check (log s).
Proof.
  induction evs as [|e evs IH]; intros s Hs He; [auto|].
  cbn [forallb] in He. apply andb_true_iff in He. destruct He as [He1 He2].
  rewrite run_cons.
  assert (G : initStarted (step s e) = true).
  { destruct (step_guard_stays s e He1) as [G| ->]; [congruence|].
    cbn [step]. unfold openOverlay. cbn [initStarted emit].
    rewrite Hs. exact Hs. }
  destruct (IH _ G He2) as [A B]. split; [assumption|].
  rewrite B, step_checks.
  destruct e; cbn [checks_sent_by]; try lia; try discriminate.
  rewrite Hs. lia.
Qed.

Lemma guard_prevents_second_check_witness :
  count is_connection_check
    (log (run [TimerFires 0; ConfirmClick; RequestCompletes 0 Rejected;
               ConfirmClick; ProceedClick]
            (run [CardClick (GNum 3); ConfirmClick] initial))) =
  count is_connection_check
    (log (run [CardClick (GNum 3); ConfirmClick] initial)).
Proof.
  apply (guard_prevents_second_check
           [TimerFires 0; ConfirmClick; RequestCompletes 0 Rejected;
            ConfirmClick; ProceedClick]
           (run [CardClick (GNum 3); ConfirmClick] initial));
    reflexivity.
Defined.

(** X5.  The console sends a connectivity request only on a click: along
    any run their number is at most the number of clicks on the confirm
    button plus the number of retries, and at least the number of
    retries.  Timers and answers never send one. *)
Theorem checks_only_on_clicks (evs : list Event) :
  forall s : State,
    count is_connection_check (log s) + count_events is_retry_click evs <=
    count is_connection_check (log (run evs s)) /\
    count is_connection_check (log (run evs s)) <=
    count is_connection_check (log s)
    + count_events is_confirm_click evs + count_events is_retry_click evs.
Proof.
  induction evs as [|e evs IH]; intros s.
  - cbn. lia.
  - rewrite run_cons. destruct (IH (step s e)) as [A B].
    rewrite step_checks in A, B.
    unfold count_events in *. cbn [filter].
    destruct e; cbn [checks_sent_by is_retry_click is_confirm_click List.length]
      in *; try lia.
    destruct (initStarted s); lia.
Qed.

(* ------------------------------------------------------------------ *)
(** ** An answer that arrives after another game was chosen *)
(* ------------------------------------------------------------------ *)

(** X6.  Choosing another card does not detach a background check that is
    still awaited.  When its answer arrives it is taken as the result of
    the new selection: the steps are filtered with the order of the game
    selected now, the result is stored, and [initReady] is set although
    [initStarted] is false. *)
Theorem late_answer_counts_for_new_selection (s : State) (i : nat) (d : Z)
    (data : JVal) (g' : GameId) (rs : list StepResult) :
  nth_error (pending s) i = Some (AwaitCheck d true) ->
  collect_steps (controllerMode s) data (order g') = Some rs ->
  selectedGameId (run [CardClick g'; RequestCompletes i (Json data)] s) = g' /\
  flags (run [CardClick g'; RequestCompletes i (Json data)] s) =
    (false, true, truthy (field data "success")) /\
  initStoredResults (run [CardClick g'; RequestCompletes i (Json data)] s) =
    Some (mkStored rs (truthy (field data "success"))).
Proof.
  intros E C. cbn [run fold_left step].
  unfold fire, cardClick. cbn [pending set_flags emit set_game].
  rewrite E.
  rewrite deferred_response.
  cbn [controllerMode selectedGameId set_pending set_flags emit set_game].
  rewrite C. repeat split.
Qed.

Lemma late_answer_counts_for_new_selection_witness :
  initStoredResults
    (run [CardClick (GNum 1); RequestCompletes 0 (Json resp_car_timeout)]
       (run [CardClick (GNum 2); ConfirmClick] initial)) =
  Some (mkStored [mkStep "Joystick Controller" true (JStr "");
                  mkStep "Nodes" true (JStr "");
                  mkStep "Drone" true (JStr "")] false).
Proof.
  apply (late_answer_counts_for_new_selection
           (run [CardClick (GNum 2); ConfirmClick] initial) 0 0%Z
           resp_car_timeout (GNum 1)); reflexivity.
Defined.

(* ------------------------------------------------------------------ *)
(** ** Launches and the preview video *)
(* ------------------------------------------------------------------ *)

Lemma page_step_potential (p : Page) (e : PageEvent) :
  potential (core (page_step p e)) + (if armed (page_step p e) then 1 else 0)
  <= potential (core p) + (if armed p then 1 else 0)
     + (if is_video_ended e then 1 else 0)
     + (if is_page_retry e then 1 else 0).
Proof.
  destruct e as [| |e]; cbn [page_step is_video_ended is_page_retry].
  - cbn [core armed]. destruct (armed p); lia.
  - cbn [core armed]. destruct (armed p); potential_tac.
  - pose proof (step_potential (core p) e) as H.
    destruct (armed p) eqn:A, (clickable p) eqn:C, e;
      cbn [page_step core armed clickable andb arms_launch step] in *;
      rewrite ?A, ?C; cbn [core armed andb]; rewrite ?A; lia.
Qed.

(** X7.  On the confirm page the click listener of the progress button is
    registered when the preview video ends and runs once.  So along any
    run the launch sequence is entered at most once for each time the
    video has played to its end, plus once for each retry. *)
Theorem launches_bounded_by_video_ends (evs : list PageEvent) :
  launches (core (page_run evs page_initial)) <=
  count_page_events is_video_ended evs + count_page_events is_page_retry evs.
Proof.
  assert (K : forall evs p,
             potential (core (page_run evs p))
             + (if armed (page_run evs p) then 1 else 0)
             <= potential (core p) + (if armed p then 1 else 0)
                + count_page_events is_video_ended evs
                + count_page_events is_page_retry evs).
  { clear. induction evs as [|e evs IH]; intros p.
    - cbn. lia.
    - change (page_run (e :: evs) p) with (page_run evs (page_step p e)).
      pose proof (IH (page_step p e)) as A.
      pose proof (page_step_potential p e) as B.
      unfold count_page_events in *. cbn [filter].
      destruct (is_video_ended e), (is_page_retry e); cbn [List.length];
        lia. }
  pose proof (K evs page_initial) as H.
  unfold potential in H at 1.
  change (potential (core page_initial)) with 0 in H.
  cbn [armed page_initial] in H.
  destruct (armed (page_run evs page_initial)); lia.
Qed.

(* ------------------------------------------------------------------ *)
(** ** The leaderboard *)
(* ------------------------------------------------------------------ *)

Lemma table_rows_nth (rest : list JVal) :
  forall (r : nat) (rows : list Board.Row) (i : nat) (p : JVal),
    Board.table_rows r rest = Some rows ->
    nth_error rest i = Some p ->
    nth_error rows i =
      Some (Board.mkRow (r + i) (field p "name") (field p "score")).
Proof.
  induction rest as [|q tl IH]; intros r rows i p H E.
  - destruct i; discriminate.
  - cbn [Board.table_rows] in H.
    destruct (get q "name") as [n|] eqn:N; [|discriminate].
    destruct (get q "score") as [sc|] eqn:Sc; [|discriminate].
    destruct (Board.table_rows (S r) tl) as [rows'|] eqn:T; [|discriminate].
    cbn in H. injection H as <-.
    destruct i as [|i]; cbn [nth_error] in *.
    + injection E as <-. unfold field. rewrite N, Sc.
      now rewrite Nat.add_0_r.
    + rewrite (IH _ _ _ _ T E). f_equal. f_equal. lia.
Qed.

Lemma table_rows_length (rest : list JVal) :
  forall (r : nat) (rows : list Board.Row),
    Board.table_rows r rest = Some rows ->
    List.length rows = List.length rest.
Proof.
  induction rest as [|q tl IH]; intros r rows H.
  - injection H as <-. reflexivity.
  - cbn [Board.table_rows] in H.
    destruct (get q "name"); [|discriminate].
    destruct (get q "score"); [|discriminate].
    destruct (Board.table_rows (S r) tl) as [rows'|] eqn:T; [|discriminate].
    cbn in H. injection H as <-. cbn. f_equal. eauto.
Qed.

Lemma table_rows_some (rest : list JVal) :
  forall r : nat,
    Forall (fun p => p <> JNull /\ p <> JUndef) rest ->
    exists rows, Board.table_rows r rest = Some rows.
Proof.
  induction rest as [|q tl IH]; intros r H; [eexists; reflexivity|].
  inversion H as [|? ? [Hn Hu] Ht]; subst.
  destruct (IH (S r) Ht) as [rows E].
  cbn [Board.table_rows]. rewrite E.
  destruct q; try congruence; eexists; reflexivity.
Qed.

(** X8.  With more than three players, none of the later entries being
    [null], the first three go to the podium and every other player is
    listed exactly once, in the order of the answer: the player at
    position [i] (counted from 0) is the row number [i - 3] and carries
    rank [i + 1]. *)
Theorem leaderboard_ranks (data : JVal) (players : list JVal) :
  Board.players_of data = JArr players ->
  3 < List.length players ->
  Forall (fun p => p <> JNull /\ p <> JUndef) (skipn 3 players) ->
  exists rows,
    Board.on_data data =
      Some (Board.mkView (map Board.pod_of (firstn 3 players))
                         (Board.Rows rows)) /\
    List.length rows = List.length players - 3 /\
    forall i p,
      3 <= i -> nth_error players i = Some p ->
      nth_error rows (i - 3) =
        Some (Board.mkRow (i + 1) (field p "name") (field p "score")).
Proof.
  intros P L F.
  destruct (table_rows_some _ 4 F) as [rows T].
  exists rows. unfold Board.on_data. rewrite P.
  destruct (Nat.leb_spec (List.length players) 3) as [H|_]; [lia|].
  rewrite T. repeat split.
  - destruct players as [|a [|b [|c tl]]]; cbn in L; try lia. reflexivity.
  - rewrite (table_rows_length _ _ _ T), length_skipn. reflexivity.
  - intros i p Hi E.
    assert (E' : nth_error (skipn 3 players) (i - 3) = Some p).
    { rewrite nth_error_skipn. replace (3 + (i - 3)) with i by lia. exact E. }
    rewrite (table_rows_nth _ _ _ _ _ T E'). f_equal. f_equal. lia.
Qed.

Lemma leaderboard_ranks_witness :
  exists rows,
    Board.on_data
      (JObj [("leaderboard",
              JArr [JObj [("name", JStr "a"); ("score", JNum 9)];
                    JObj [("name", JStr "b"); ("score", JNum 7)];
                    JObj [("name", JStr "c"); ("score", JNum 5)];
                    JObj [("name", JStr "d"); ("score", JNum 2)]])]) =
      Some (Board.mkView
              (map Board.pod_of
                 (firstn 3
                    [JObj [("name", JStr "a"); ("score", JNum 9)];
                     JObj [("name", JStr "b"); ("score", JNum 7)];
                     JObj [("name", JStr "c"); ("score", JNum 5)];
                     JObj [("name", JStr "d"); ("score", JNum 2)]]))
              (Board.Rows rows)) /\
    List.length rows = 4 - 3 /\
    forall i p,
      3 <= i ->
      nth_error [JObj [("name", JStr "a"); ("score", JNum 9)];
                 JObj [("name", JStr "b"); ("score", JNum 7)];
                 JObj [("name", JStr "c"); ("score", JNum 5)];
                 JObj [("name", JStr "d"); ("score", JNum 2)]] i = Some p ->
      nth_error rows (i - 3) =
        Some (Board.mkRow (i + 1) (field p "name") (field p "score")).
Proof.
  apply (leaderboard_ranks
           (JObj [("leaderboard",
                   JArr [JObj [("name", JStr "a"); ("score", JNum 9)];
                         JObj [("name", JStr "b"); ("score", JNum 7)];
                         JObj [("name", JStr "c"); ("score", JNum 5)];
                         JObj [("name", JStr "d"); ("score", JNum 2)]])])).
  - reflexivity.
  - cbn. lia.
  - repeat constructor; discriminate.
Defined.

(** X9.  With at most three players, and also when the answer is [null]
    or has no [leaderboard], the table says that all players are on the
    podium; the podium shows the players in order and its remaining
    places are blank. *)
Theorem leaderboard_small (data : JVal) (players : list JVal) :
  Board.players_of data = JArr players ->
  List.length players <= 3 ->
  Board.on_data data =
    Some (Board.mkView
            (map Board.pod_of players
             ++ repeat Board.blank (3 - List.length players))
            Board.AllOnPodium) /\
  Board.on_data JNull = Some (Board.mkView (repeat Board.blank 3)
                                           Board.AllOnPodium) /\
  (field data "leaderboard" = JUndef ->
   Board.on_data data = Some (Board.mkView (repeat Board.blank 3)
                                           Board.AllOnPodium)).
Proof.
  intros P L. repeat split.
  - unfold Board.on_data. rewrite P.
    destruct (Nat.leb_spec (List.length players) 3) as [_|H]; [|lia].
    destruct players as [|a [|b [|c [|e tl]]]]; cbn in L; try lia;
      reflexivity.
  - intros U. unfold Board.on_data, Board.players_of. rewrite U.
    destruct (truthy data); reflexivity.
Qed.

Lemma leaderboard_small_witness :
  Board.on_data (JObj [("leaderboard", JArr [JObj [("name", JStr "a")]])]) =
  Some (Board.mkView
          (map Board.pod_of [JObj [("name", JStr "a")]]
           ++ repeat Board.blank (3 - 1))
          Board.AllOnPodium).
Proof.
  apply (leaderboard_small
           (JObj [("leaderboard", JArr [JObj [("name", JStr "a")]])])
           [JObj [("name", JStr "a")]]).
  - reflexivity.
  - cbn. lia.
Defined.

(** X10.  A [null] entry after the third place makes the table show the
    loading error although the podium has been filled from the same
    answer; a rejected request or a body that is not JSON shows the error
    and leaves the podium as it was. *)
Theorem leaderboard_errors (data : JVal) (players : list JVal)
    (v : Board.View) :
  Board.players_of data = JArr players ->
  In JNull (skipn 3 players) ->
  Board.on_data data =
    Some (Board.mkView (map Board.pod_of (firstn 3 players)) Board.LoadError)
  /\
  Board.on_response Rejected v =
    Some (Board.mkView (Board.podium v) Board.LoadError) /\
  Board.on_response NotJson v =
    Some (Board.mkView (Board.podium v) Board.LoadError).
Proof.
  intros P N. repeat split.
  assert (T : forall rest r0, In JNull rest -> Board.table_rows r0 rest = None).
  { clear. induction rest as [|q tl IH]; intros r0 H; [contradiction|].
    destruct H as [->|H]; [reflexivity|].
    cbn [Board.table_rows]. rewrite (IH _ H).
    destruct (get q "name"), (get q "score"); reflexivity. }
  unfold Board.on_data. rewrite P.
  assert (L : 3 < List.length players).
  { destruct players as [|a [|b [|c [|e tl]]]]; cbn in N; try contradiction.
    cbn. lia. }
  destruct (Nat.leb_spec (List.length players) 3) as [H|_]; [lia|].
  rewrite (T _ _ N).
  destruct players as [|a [|b [|c tl]]]; cbn in L; try lia. reflexivity.
Qed.

Lemma leaderboard_errors_witness :
  Board.on_data
    (JObj [("leaderboard",
            JArr [JObj [("name", JStr "a")]; JNull; JNull; JNull])]) =
  Some (Board.mkView
          (map Board.pod_of (firstn 3 [JObj [("name", JStr "a")]; JNull; JNull;
                                       JNull]))
          Board.LoadError).
Proof.
  apply (leaderboard_errors
           (JObj [("leaderboard",
                   JArr [JObj [("name", JStr "a")]; JNull; JNull; JNull])])
           [JObj [("name", JStr "a")]; JNull; JNull; JNull]
           Board.loading).
  - reflexivity.
  - cbn. auto.
Defined.

(* ------------------------------------------------------------------ *)
(** ** Waiting for the end of the game *)
(* ------------------------------------------------------------------ *)

Lemma done_step_stopped (p : Done.Poll) (e : Done.Ev) :
  Done.live p = false ->
  Done.live (Done.step p e) = false /\
  Done.sent (Done.step p e) = Done.sent p /\
  Done.shown (Done.step p e) + Done.in_flight (Done.step p e) <=
  Done.shown p + Done.in_flight p.
Proof.
  intros L. destruct e as [|r]; cbn [Done.step].
  - rewrite L. repeat split; auto.
  - destruct (Done.in_flight p) as [|n] eqn:F; [rewrite F; repeat split; auto|].
    destruct r as [| |d]; cbn; try (repeat split; auto; lia).
    destruct (get d "done") as [v|]; [destruct (truthy v)|]; cbn;
      repeat split; auto; lia.
Qed.

(** X11.  Once the interval has been cleared (an answer reported [done],
    or a poll failed), it is never set again and no further request is
    sent.  [showLeaderboard] can then still be called, but only by the
    answers of the requests that were already on their way. *)
Theorem polling_stops_for_good (evs : list Done.Ev) :
  forall p : Done.Poll,
    Done.live p = false ->
    Done.live (Done.run evs p) = false /\
    Done.sent (Done.run evs p) = Done.sent p /\
    Done.shown (Done.run evs p) <= Done.shown p + Done.in_flight p.
Proof.
  induction evs as [|e evs IH]; intros p L.
  - cbn. repeat split; auto; lia.
  - change (Done.run (e :: evs) p) with (Done.run evs (Done.step p e)).
    destruct (done_step_stopped p e L) as (A & B & C).
    destruct (IH _ A) as (A' & B' & C').
    repeat split; auto; lia.
Qed.

Lemma polling_stops_for_good_witness :
  Done.sent (Done.run [Done.Tick; Done.Answer Rejected; Done.Tick]
               (Done.run [Done.Tick; Done.Tick; Done.Answer Rejected]
                  Done.start)) =
  Done.sent (Done.run [Done.Tick; Done.Tick; Done.Answer Rejected] Done.start).
Proof.
  apply (polling_stops_for_good
           [Done.Tick; Done.Answer Rejected; Done.Tick]
           (Done.run [Done.Tick; Done.Tick; Done.Answer Rejected] Done.start)).
  reflexivity.
Defined.

(** X12.  As long as every answer is readable JSON whose [done] is falsy,
    the interval stays set, the leaderboard is not shown, and every tick
    sends a request, also while earlier requests are unanswered. *)
Theorem polling_goes_on (evs : list Done.Ev) :
  forall p : Done.Poll,
    Done.live p = true ->
    forallb Done.not_done evs = true ->
    Done.live (Done.run evs p) = true /\
    Done.shown (Done.run evs p) = Done.shown p /\
    Done.sent (Done.run evs p) =
      Done.sent p + List.length (filter Done.is_tick evs).
Proof.
  induction evs as [|e evs IH]; intros p L H.
  - cbn. repeat split; auto.
  - change (Done.run (e :: evs) p) with (Done.run evs (Done.step p e)).
    cbn [forallb] in H. apply andb_true_iff in H. destruct H as [He H].
    assert (S1 : Done.live (Done.step p e) = true /\
                 Done.shown (Done.step p e) = Done.shown p /\
                 Done.sent (Done.step p e) =
                   Done.sent p + (if Done.is_tick e then 1 else 0)).
    { destruct e as [|r]; cbn [Done.step Done.is_tick].
      - rewrite L. cbn. repeat split; auto; lia.
      - destruct (Done.in_flight p) as [|n]; [repeat split; auto|].
        destruct r as [| |d]; cbn [Done.not_done] in He; try discriminate.
        destruct (get d "done") as [v|]; [|discriminate].
        apply negb_true_iff in He. rewrite He. cbn. repeat split; auto. }
    destruct S1 as (A & B & C).
    destruct (IH _ A H) as (A' & B' & C').
    repeat split; auto; try congruence.
    rewrite C', C. cbn [filter].
    destruct (Done.is_tick e); cbn [List.length]; lia.
Qed.

Lemma polling_goes_on_witness :
  Done.sent
    (Done.run [Done.Tick; Done.Tick;
               Done.Answer (Json (JObj [("done", JBool false)]))]
              Done.start) =
  Done.sent Done.start + 2.
Proof.
  apply (polling_goes_on
           [Done.Tick; Done.Tick;
            Done.Answer (Json (JObj [("done", JBool false)]))]
           Done.start); reflexivity.
Defined.

(* ------------------------------------------------------------------ *)
(** ** Token scanning *)
(* ------------------------------------------------------------------ *)

Lemma scan_clear_tidy (s : Scan.Scanner) :
  Scan.tidy s -> Scan.clearScan s = [].
Proof.
  intros [[E|(id & I & E)] _]; unfold Scan.clearScan.
  - rewrite E. destruct (Scan.scanInterval s); reflexivity.
  - rewrite I, E. cbn. now rewrite Nat.eqb_refl.
Qed.

Lemma scan_step_tidy (s : Scan.Scanner) (e : Scan.Ev) :
  Scan.tidy s -> Scan.tidy (Scan.step s e).
Proof.
  intros T. pose proof (scan_clear_tidy s T) as C.
  destruct T as [T B].
  destruct e as [| |id|r|]; cbn [Scan.step].
  - split; [left; exact C|exact B].
  - split.
    + right. eexists. split; [reflexivity|]. cbn. now rewrite C.
    + intros id E. cbn in E. injection E as <-. cbn. lia.
  - destruct (existsb (Nat.eqb id) (Scan.intervals s) && Scan.scanningActive s);
      split; assumption.
  - destruct (Scan.in_flight s); [split; assumption|].
    destruct r as [| |d]; try (split; assumption).
    destruct (get d "success") as [v|]; [destruct (truthy v)|];
      split; assumption.
  - destruct (Scan.greetings s); split; assumption.
Qed.

(** X13.  From the page load on, through any sequence of
    [confirmPlayer], [backToHome], ticks, answers and greeting timers, at
    most one scan interval is set: [backToHome] clears the previous one
    before it starts the next. *)
Theorem one_scan_interval (evs : list Scan.Ev) :
  List.length (Scan.intervals (Scan.run evs Scan.loaded)) <= 1.
Proof.
  assert (K : forall evs s, Scan.tidy s -> Scan.tidy (Scan.run evs s)).
  { clear. induction evs as [|e evs IH]; intros s T; [exact T|].
    change (Scan.run (e :: evs) s) with (Scan.run evs (Scan.step s e)).
    apply IH. now apply scan_step_tidy. }
  destruct (K evs Scan.loaded) as [[E|(id & _ & E)] _].
  - split.
    + right. exists 1. split; reflexivity.
    + intros id E. injection E as <-. cbn. lia.
  - rewrite E. cbn. lia.
  - rewrite E. cbn. lia.
Qed.

Lemma scan_step_quiet (s : Scan.Scanner) (e : Scan.Ev) :
  Scan.is_back_to_home e = false ->
  Scan.intervals s = [] ->
  Scan.intervals (Scan.step s e) = [] /\
  Scan.requests (Scan.step s e) = Scan.requests s.
Proof.
  intros He I. destruct e as [| |id|r|]; cbn [Scan.step]; try discriminate.
  - unfold Scan.confirmPlayer, Scan.clearScan. cbn. rewrite I.
    destruct (Scan.scanInterval s); auto.
  - rewrite I. cbn. auto.
  - destruct (Scan.in_flight s); [auto|].
    destruct r as [| |d]; auto.
    destruct (get d "success") as [v|]; [destruct (truthy v)|]; auto.
  - destruct (Scan.greetings s); auto.
Qed.

(** X14.  After [confirmPlayer], and until [backToHome], no scan request
    is sent: the interval has been cleared and nothing sets a new one. *)
Theorem confirm_stops_scanning (before after : list Scan.Ev) :
  forallb (fun e => negb (Scan.is_back_to_home e)) after = true ->
  Scan.requests
    (Scan.run after (Scan.confirmPlayer (Scan.run before Scan.loaded))) =
  Scan.requests (Scan.run before Scan.loaded).
Proof.
  intros H.
  assert (T : Scan.tidy (Scan.run before Scan.loaded)).
  { assert (K : forall evs s, Scan.tidy s -> Scan.tidy (Scan.run evs s)).
    { clear. induction evs as [|e evs IH]; intros s T; [exact T|].
      change (Scan.run (e :: evs) s) with (Scan.run evs (Scan.step s e)).
      apply IH. now apply scan_step_tidy. }
    apply K. split.
    - right. exists 1. split; reflexivity.
    - intros id E. injection E as <-. cbn. lia. }
  pose proof (scan_clear_tidy _ T) as C.
  set (s0 := Scan.confirmPlayer (Scan.run before Scan.loaded)).
  assert (I0 : Scan.intervals s0 = []) by exact C.
  change (Scan.requests (Scan.run before Scan.loaded))
    with (Scan.requests s0).
  clearbody s0. clear T C.
  revert s0 I0. induction after as [|e after IH]; intros s0 I0; [reflexivity|].
  cbn [forallb] in H. apply andb_true_iff in H. destruct H as [He H].
  apply negb_true_iff in He.
  change (Scan.run (e :: after) s0) with (Scan.run after (Scan.step s0 e)).
  destruct (scan_step_quiet s0 e He I0) as [I1 R1].
  rewrite (IH H _ I1). exact R1.
Qed.

Lemma confirm_stops_scanning_witness :
  Scan.requests
    (Scan.run [Scan.Tick 1; Scan.Answer Rejected; Scan.Tick 1]
       (Scan.confirmPlayer (Scan.run [Scan.Tick 1] Scan.loaded))) =
  Scan.requests (Scan.run [Scan.Tick 1] Scan.loaded).
Proof.
  apply (confirm_stops_scanning
           [Scan.Tick 1] [Scan.Tick 1; Scan.Answer Rejected; Scan.Tick 1]).
  reflexivity.
Defined.

(** X15.  [confirmPlayer] does not cancel a scan that is on its way.  If
    its answer reports a token, the token and the name are replaced, and
    600 ms later the greeting page takes the place of the game
    selection. *)
Theorem late_scan_returns_to_greeting (s : Scan.Scanner) (d v : JVal) :
  0 < Scan.in_flight s ->
  get d "success" = Some v ->
  truthy v = true ->
  Scan.page (Scan.run [Scan.ConfirmPlayer] s) = "page_choose_game" /\
  Scan.rfidTag (Scan.run [Scan.ConfirmPlayer; Scan.Answer (Json d)] s) =
    field d "token_id" /\
  Scan.username (Scan.run [Scan.ConfirmPlayer; Scan.Answer (Json d)] s) =
    field d "name" /\
  Scan.page
    (Scan.run [Scan.ConfirmPlayer; Scan.Answer (Json d); Scan.Greet] s) =
    "page2".
Proof.
  intros F G T. cbn [Scan.run fold_left Scan.step].
  unfold Scan.confirmPlayer. cbn [Scan.in_flight].
  destruct (Scan.in_flight s) as [|n]; [lia|].
  rewrite G, T. cbn. repeat split.
Qed.

Lemma late_scan_returns_to_greeting_witness :
  Scan.page
    (Scan.run [Scan.ConfirmPlayer;
               Scan.Answer (Json (JObj [("success", JBool true);
                                        ("token_id", JStr "t7")]));
               Scan.Greet]
       (Scan.run [Scan.Tick 1] Scan.loaded)) = "page2".
Proof.
  apply (late_scan_returns_to_greeting
           (Scan.run [Scan.Tick 1] Scan.loaded)
           (JObj [("success", JBool true); ("token_id", JStr "t7")])
           (JBool true)).
  - cbn. lia.
  - reflexivity.
  - reflexivity.
Defined.

(* ------------------------------------------------------------------ *)
(** ** Pages and rules *)
(* ------------------------------------------------------------------ *)












Lemma game_text_numeral (g : GameId) (z : Z) :
  Dom.game_text g = NilEmpty.string_of_int (Z.to_int z) -> g = GNum z.
Proof.
  destruct g as [| |z']; cbn [Dom.game_text]; intros H.
  - apply (f_equal NilEmpty.int_of_string) in H.
    rewrite NilEmpty.isi in H. discriminate.
  - apply (f_equal NilEmpty.int_of_string) in H.
    rewrite NilEmpty.isi in H. discriminate.
  - apply (f_equal NilEmpty.int_of_string) in H.
    rewrite !NilEmpty.isi in H. injection H as H.
    apply DecimalZ.to_int_inj in H. now subst.
Qed.

(** X17.  For the games 1, 2 and 3 the confirm page shows the rule set of
    the game and the initialising page copies the same one.  For every
    other [selectedGameId] (none chosen, not a number, another number)
    the confirm page hides all three rule sets while the initialising
    page shows the rules of game 1. *)
Theorem rules_follow_the_game (g : GameId) :
  (g = GNum 1 /\ Dom.confirm_visible g = ["rules-1"]
              /\ Dom.init_rules_source g = "rules-1") \/
  (g = GNum 2 /\ Dom.confirm_visible g = ["rules-2"]
              /\ Dom.init_rules_source g = "rules-2") \/
  (g = GNum 3 /\ Dom.confirm_visible g = ["rules-3"]
              /\ Dom.init_rules_source g = "rules-3") \/
  (g <> GNum 1 /\ g <> GNum 2 /\ g <> GNum 3 /\
   Dom.confirm_visible g = [] /\ Dom.init_rules_source g = "rules-1").
Proof.
  destruct (String.eqb_spec (Dom.game_text g) "1") as [E1|N1].
  { left. apply (game_text_numeral g 1) in E1. subst. repeat split. }
  destruct (String.eqb_spec (Dom.game_text g) "2") as [E2|N2].
  { right; left. apply (game_text_numeral g 2) in E2. subst. repeat split. }
  destruct (String.eqb_spec (Dom.game_text g) "3") as [E3|N3].
  { right; right; left. apply (game_text_numeral g 3) in E3. subst.
    repeat split. }
  right; right; right.
  apply String.eqb_neq in N1, N2, N3.
  assert (K : forall k, ("rules-" ++ k =? "rules-" ++ Dom.game_text g)%string
                        = (k =? Dom.game_text g)).
  { intros k. reflexivity. }
  repeat split; try (intros ->; cbn in *; discriminate).
  - unfold Dom.confirm_visible, Dom.confirm_rules, Dom.rulesIds.
    cbn [map filter snd].
    change "rules-1" with ("rules-" ++ "1")%string.
    change "rules-2" with ("rules-" ++ "2")%string.
    change "rules-3" with ("rules-" ++ "3")%string.
    rewrite !K. rewrite (String.eqb_sym "1"), (String.eqb_sym "2"),
      (String.eqb_sym "3"), N1, N2, N3. reflexivity.
  - unfold Dom.init_rules_source, Dom.rulesMap. cbn [Dom.lookup].
    rewrite (String.eqb_sym "1"), (String.eqb_sym "2"), (String.eqb_sym "3"),
      N1, N2, N3. reflexivity.
Qed.

(* ------------------------------------------------------------------ *)
(** ** The card slider *)
(* ------------------------------------------------------------------ *)

Lemma scan_first_closest (t : Slider.Track) (rest : list Slider.Card) :
  forall (seen : list Slider.Card) (closest : option nat) (minDist : option Q),
    (seen = [] /\ closest = None /\ minDist = None \/
     exists k m, closest = Some k /\ minDist = Some m /\
                 first_closest t seen k m) ->
    rest <> [] \/ seen <> [] ->
    exists k m,
      Slider.scan t rest (List.length seen) closest minDist = Some k /\
      first_closest t (seen ++ rest) k m.
Proof.
  induction rest as [|c rest IH]; intros seen closest minDist Inv Ne.
  - destruct Inv as [(-> & _ & _)|(k & m & -> & -> & F)].
    + destruct Ne; congruence.
    + exists k, m. rewrite app_nil_r. auto.
  - cbn [Slider.scan].
    replace (seen ++ c :: rest) with ((seen ++ [c]) ++ rest)
      by (now rewrite <- app_assoc).
    replace (S (List.length seen)) with (List.length (seen ++ [c]))
      by (rewrite length_app; cbn; lia).
    assert (Ne' : rest <> [] \/ seen ++ [c] <> []).
    { right. destruct seen; discriminate. }
    destruct Inv as [(-> & -> & ->)|(k & m & -> & -> & F)].
    + cbn [Slider.closer]. apply IH; [|exact Ne'].
      right. exists 0, (Slider.dist t c). repeat split.
      exists c. repeat split.
      * intros j c' E. destruct j as [|[|j]]; cbn in E; try discriminate.
        injection E as <-. apply Qle_refl.
      * intros j c' Hj. lia.
    + cbn [Slider.closer].
      destruct F as (b & Eb & -> & Hle & Hlt).
      assert (Lk : k < List.length seen)
        by (apply nth_error_Some; congruence).
      destruct (Qlt_le_dec (Slider.dist t c) (Slider.dist t b)) as [Hc|Hc];
        (apply IH; [|exact Ne']); right.
      * exists (List.length seen), (Slider.dist t c). repeat split.
        exists c. repeat split.
        -- now rewrite nth_error_app2, Nat.sub_diag by lia.
        -- intros j c' E.
           destruct (Nat.lt_ge_cases j (List.length seen)) as [Hj|Hj].
           ++ rewrite nth_error_app1 in E by lia.
              apply Qlt_le_weak. eapply Qlt_le_trans; [exact Hc|].
              exact (Hle j c' E).
           ++ rewrite nth_error_app2 in E by lia.
              destruct (j - List.length seen) as [|[|n]]; cbn in E;
                try discriminate.
              injection E as <-. apply Qle_refl.
        -- intros j c' Hj E. rewrite nth_error_app1 in E by lia.
           eapply Qlt_le_trans; [exact Hc|]. exact (Hle j c' E).
      * exists k, (Slider.dist t b). repeat split.
        exists b. repeat split.
        -- now rewrite nth_error_app1 by lia.
        -- intros j c' E.
           destruct (Nat.lt_ge_cases j (List.length seen)) as [Hj|Hj].
           ++ rewrite nth_error_app1 in E by lia. exact (Hle j c' E).
           ++ rewrite nth_error_app2 in E by lia.
              destruct (j - List.length seen) as [|[|n]]; cbn in E;
                try discriminate.
              injection E as <-. exact Hc.
        -- intros j c' Hj E. rewrite nth_error_app1 in E by lia.
           exact (Hlt j c' Hj E).
Qed.

Lemma mark_nth (closest : nat) (cards : list Slider.Card) :
  forall (i j : nat) (c : Slider.Card),
    nth_error cards j = Some c ->
    nth_error (Slider.mark (Some closest) cards i) j =
    Some (if (i + j =? closest)%nat
          then (true, if Slider.has_video c then Slider.Play
                      else Slider.NoVideo)
          else (false, if Slider.has_video c then Slider.PauseAndRewind
                       else Slider.NoVideo)).
Proof.
  induction cards as [|a rest IH]; intros i j c E.
  - destruct j; discriminate.
  - destruct j as [|j]; cbn [nth_error Slider.mark] in *.
    + injection E as ->. now rewrite Nat.add_0_r.
    + rewrite (IH (S i) j c E).
      now replace (S i + j) with (i + S j) by lia.
Qed.

(** X18.  On a layout of whole numbers of pixels (of magnitude at most
    2^31) with at least one card, [updateActiveCard] makes exactly one
    card active: a card whose centre is nearest to the centre of the
    slider, the first such card if several are equally near.  Only that
    card's video plays; every other video is paused and rewound. *)
Theorem active_card_is_the_nearest (t : Slider.Track)
    (cards : list Slider.Card) :
  Slider.exact t cards = true ->
  cards <> [] ->
  exists k c marks,
    Slider.updateActiveCard t cards = Some marks /\
    Slider.closest_card t cards = Some k /\
    nth_error cards k = Some c /\
    (forall j c', nth_error cards j = Some c' ->
                  (Slider.dist t c <= Slider.dist t c')%Q) /\
    (forall j c', j < k -> nth_error cards j = Some c' ->
                  (Slider.dist t c < Slider.dist t c')%Q) /\
    (forall j c', nth_error cards j = Some c' ->
       nth_error marks j =
       Some (if (j =? k)%nat
             then (true, if Slider.has_video c' then Slider.Play
                         else Slider.NoVideo)
             else (false, if Slider.has_video c' then Slider.PauseAndRewind
                          else Slider.NoVideo))).
Proof.
  intros Ex Ne.
  destruct (scan_first_closest t cards [] None None) as (k & m & S & F);
    [left; auto|left; exact Ne|].
  destruct F as (c & Ec & _ & Hle & Hlt).
  exists k, c, (Slider.mark (Some k) cards 0). cbn [app List.length] in *.
  unfold Slider.updateActiveCard, Slider.closest_card.
  rewrite Ex, S. repeat split; auto.
  intros j c' E. exact (mark_nth k cards 0 j c' E).
Qed.

Lemma active_card_is_the_nearest_witness :
  exists k c marks,
    Slider.updateActiveCard (Slider.mkTrack 100 300)
      [Slider.mkCard 0 200 true; Slider.mkCard 200 200 true] = Some marks /\
    Slider.closest_card (Slider.mkTrack 100 300)
      [Slider.mkCard 0 200 true; Slider.mkCard 200 200 true] = Some k /\
    nth_error [Slider.mkCard 0 200 true; Slider.mkCard 200 200 true] k
      = Some c /\
    (forall j c',
        nth_error [Slider.mkCard 0 200 true; Slider.mkCard 200 200 true] j
          = Some c' ->
        (Slider.dist (Slider.mkTrack 100 300) c <=
         Slider.dist (Slider.mkTrack 100 300) c')%Q).
Proof.
  destruct (active_card_is_the_nearest (Slider.mkTrack 100 300)
              [Slider.mkCard 0 200 true; Slider.mkCard 200 200 true])
    as (k & c & marks & U & A & B & C & _).
  - reflexivity.
  - discriminate.
  - exists k, c, marks. auto.
Defined.

(* ------------------------------------------------------------------ *)
(** ** The readiness flag and the stored result *)
(* ------------------------------------------------------------------ *)

Ltac ready_tac :=
  unfold ready_has_result in *;
  cbn [initReady initSuccess initStoredResults emit push set_pending
       store_result set_flags set_game set_mode set_token success] in *;
  solve [assumption | left; reflexivity | right; eauto].

Lemma ready_has_result_check_loop (d : Z) (skip : bool) (data : JVal)
    (names : list string) (acc : list StepResult) (s : State) :
  ready_has_result s ->
  ready_has_result (check_loop d skip data names acc s).
Proof.
  intros H.
  destruct (check_loop_store d skip data names acc s)
    as [[E F]|(rs & E1 & E2 & E3)].
  - unfold flags in F. injection F as F1 F2 F3.
    unfold ready_has_result in *. rewrite E, F2, F3. exact H.
  - right. eexists. split; [exact E1|]. rewrite E3. reflexivity.
Qed.

Ltac ready_cases :=
  unfold_handlers;
  repeat (cbn [initReady initSuccess initStoredResults initStarted emit push
               set_pending store_result set_flags set_game set_mode
               set_token];
          match goal with
          | |- context [if ?b then _ else _] => is_plain b; destruct b
          | |- context [match ?x with Some _ => _ | None => _ end] =>
              is_plain x; destruct x
          end);
  ready_tac.

Lemma ready_has_result_step (s : State) (e : Event) :
  ready_has_result s -> ready_has_result (step s e).
Proof.
  intros H. destruct e as [tok|g| | | | |i|i r]; cbn [step];
    try solve [ready_cases].
  - unfold fire.
    destruct (nth_error (pending s) i) as [t|]; [|assumption].
    assert (Hs : ready_has_result (set_pending (remove_nth i (pending s)) s))
      by ready_tac.
    destruct t; cbn [resume_timer];
      first [ assumption
            | apply ready_has_result_check_loop; ready_tac
            | ready_cases ].
  - unfold fire.
    destruct (nth_error (pending s) i) as [t|]; [|assumption].
    assert (Hs : ready_has_result (set_pending (remove_nth i (pending s)) s))
      by ready_tac.
    destruct t; cbn [resume_net]; try assumption; destruct r;
      first [ assumption
            | apply ready_has_result_check_loop; ready_tac
            | ready_cases ].
Qed.

(** X19.  In every run, whenever [initReady] is set the store holds a
    result and [initSuccess] equals its [success].  So the replay started
    by [waitReady] always finds a result, and its final status agrees
    with what [maybeStart] decides from [initSuccess]. *)
Theorem ready_means_result_with_same_success (evs : list Event) :
  initReady (run evs initial) = true ->
  exists stored,
    initStoredResults (run evs initial) = Some stored /\
    initSuccess (run evs initial) = success stored.
Proof.
  assert (K : forall evs s, ready_has_result s -> ready_has_result (run evs s)).
  { clear. induction evs as [|e evs IH]; intros s H; [exact H|].
    rewrite run_cons. apply IH. now apply ready_has_result_step. }
  intros R. destruct (K evs initial) as [F|H].
  - left. reflexivity.
  - congruence.
  - exact H.
Qed.

Lemma ready_means_result_with_same_success_witness :
  exists stored,
    initStoredResults
      (run [CardClick (GNum 2); ConfirmClick;
            RequestCompletes 0 (Json resp_car_timeout)] initial)
    = Some stored /\
    initSuccess
      (run [CardClick (GNum 2); ConfirmClick;
            RequestCompletes 0 (Json resp_car_timeout)] initial)
    = success stored.
Proof.
  apply (ready_means_result_with_same_success
           [CardClick (GNum 2); ConfirmClick;
            RequestCompletes 0 (Json resp_car_timeout)]).
  reflexivity.
Defined.

(* ------------------------------------------------------------------ *)
(** ** A retry from start to launch *)
(* ------------------------------------------------------------------ *)

(** X20.  A retry whose answer can be read shows its steps one by one on
    its own timers and stores the result.  If the answer reports success
    the console then waits: nothing is sent until the 3000 ms timer
    fires, which sends the token write.  If not, the error is shown and
    nothing of the retry stays pending. *)
Theorem retry_runs_to_the_launch (s : State) (data : JVal)
    (rs : list StepResult) :
  collect_steps (controllerMode s) data (order (selectedGameId s)) = Some rs ->
  let n := List.length (pending s) in
  let shown :=
    run (RequestCompletes n (Json data) :: repeat (TimerFires n) (List.length rs))
        (retryConnectionCheck s) in
  let head :=
    log s ++ [HideError; ClearSteps; HideError;
              SetStatus (JStr "Running connection checks...");
              Fetch (ReqConnectionCheck (game_or_1 (selectedGameId s)))]
          ++ flat_map step_actions rs in
  flags shown = (false, true, truthy (field data "success")) /\
  initStoredResults shown =
    Some (mkStored rs (truthy (field data "success"))) /\
  (truthy (field data "success") = true ->
   log shown = head ++ [SetStatus (JStr "Connection OK. Preparing game...")] /\
   pending shown = pending s ++ [AwaitStartDelay] /\
   log (step shown (TimerFires n)) =
     log shown ++ [Fetch (ReqWriteToken (rfidTag s))] /\
   pending (step shown (TimerFires n)) =
     pending s ++ [AwaitWriteToken FromCheck]) /\
  (truthy (field data "success") = false ->
   log shown = head ++ [SetStatus (JStr "Initialisation failed."); ShowError] /\
   pending shown = pending s).
Proof.
  intros C n shown head.
  pose proof (collect_steps_success _ _ _ _ (order_not_nil _) C) as G.
  assert (E : shown =
              check_finish 3000 false data rs
                (emit (flat_map step_actions rs)
                   (emit [ClearSteps; HideError;
                          SetStatus (JStr "Running connection checks...");
                          Fetch (ReqConnectionCheck
                                   (game_or_1 (selectedGameId s)))]
                      (set_flags false false false (emit [HideError] s))))).
  { subst shown. rewrite run_cons.
    unfold retryConnectionCheck, runConnectionCheckAndStart. cbn [step].
    erewrite (fire_pushed (fun t => resume_net t (Json data)))
      by reflexivity.
    match goal with
    | |- run _ (check_loop _ _ _ ?names _ ?s1) = _ =>
        change (repeat (TimerFires n) (List.length rs))
          with (own_timers s1 (List.length rs));
        rewrite (immediate_display 3000 data names [] rs s1 C)
    end.
    reflexivity. }
  unfold check_finish in E. rewrite G in E.
  destruct (truthy (field data "success")) eqn:T; cbn [negb] in E;
    change (0 <? 3000)%Z with true in E; cbv iota in E.
  - rewrite E. split; [reflexivity|]. split; [reflexivity|].
    split; intros Ht; [|discriminate]. repeat split.
    + subst head. cbn [log emit push store_result set_flags].
      now rewrite <- !app_assoc.
    + cbn [step]. erewrite (fire_pushed resume_timer) by reflexivity.
      reflexivity.
    + cbn [step]. erewrite (fire_pushed resume_timer) by reflexivity.
      reflexivity.
  - rewrite E. split; [reflexivity|]. split; [reflexivity|].
    split; intros Ht; [discriminate|]. repeat split.
    subst head. cbn [log emit push store_result set_flags].
    now rewrite <- !app_assoc.
Qed.

Lemma retry_runs_to_the_launch_witness :
  flags (run (RequestCompletes 0 (Json resp_all_ok) :: repeat (TimerFires 0) 3)
           (retryConnectionCheck initial)) = (false, true, true).
Proof.
  apply (retry_runs_to_the_launch initial resp_all_ok
           [mkStep "Joystick Controller" true (JStr "");
            mkStep "Nodes" true (JStr "");
            mkStep "Drone" true (JStr "")]).
  reflexivity.
Defined.

(* ------------------------------------------------------------------ *)
(** ** From the progress button to the launch *)
(* ------------------------------------------------------------------ *)

(** The launch timer alone is pending: it fires, and the two requests of
    the launch are answered. *)
Lemma launch_from_timer (s : State) (written : Resp) (started v : JVal) :
  pending s = [TimerLaunch] ->
  written <> Rejected ->
  get started "success" = Some v ->
  truthy v = true ->
  run [TimerFires 0; RequestCompletes 0 written;
       RequestCompletes 0 (Json started)] s =
  emit [Fetch (ReqWriteToken (rfidTag s));
        Fetch (ReqStartGame (game_or_1 (selectedGameId s)) 1);
        SetStatus (JStr "Game started. Good luck!"); CheckGameDone]
       (set_pending [] s).
Proof.
  intros P W G T. cbn [run fold_left].
  assert (E : step s (TimerFires 0) = launch_begin FromPreview (set_pending [] s)).
  { cbn [step]. unfold fire. rewrite P. reflexivity. }
  rewrite E. unfold launch_begin. cbn [step].
  erewrite (fire_pushed (fun t => resume_net t written));
    [| reflexivity
     | destruct written; [congruence|reflexivity|reflexivity] ].
  erewrite (fire_pushed (fun t => resume_net t (Json started)));
    [| reflexivity
     | cbn [resume_net]; rewrite G, T; reflexivity ].
  rewrite !emit_emit. reflexivity.
Qed.

(** X21.  When the background check has stored a successful result and
    nothing else is pending, a click on the progress button replays the
    stored steps, shows the final status, and then launches exactly once:
    token write, start request, and on a truthy answer the completion
    polling.  Nothing stays pending and the flags are untouched. *)
Theorem proceed_replays_then_launches_once (s : State) (stored : Stored)
    (r : StepResult) (rest : list StepResult) (written : Resp)
    (started v : JVal) :
  pending s = [] ->
  initReady s = true ->
  initSuccess s = true ->
  initStoredResults s = Some stored ->
  results stored = r :: rest ->
  written <> Rejected ->
  get started "success" = Some v ->
  truthy v = true ->
  let s' := run (proceed_and_launch (List.length rest) written started) s in
  log s' =
    log s ++ [CloseOverlay; GoToPage "page_initializing"]
          ++ replay_actions stored
          ++ [Fetch (ReqWriteToken (rfidTag s));
              Fetch (ReqStartGame (game_or_1 (selectedGameId s)) 1);
              SetStatus (JStr "Game started. Good luck!"); CheckGameDone] /\
  pending s' = [] /\
  flags s' = flags s /\
  launches s' = launches s + 1.
Proof.
  intros P R Su St Rs W G T.
  destruct s as [g m tok st0 rd su sto p l].
  cbn [pending initReady initSuccess initStoredResults] in P, R, Su, St.
  subst p rd su sto.
  destruct stored as [rs b]. cbn [results] in Rs. subst rs.
  set (stored := mkStored (r :: rest) b).
  cbv zeta. unfold proceed_and_launch. rewrite !run_app.
  set (s1 := run [ProceedClick; TimerFires 0; TimerFires 1] _).
  assert (E1 : s1 =
    displayNext stored 1
      (emit [MarkRow (displayName r) (ok r) (message r)]
         (set_pending [TimerLaunch]
            (emit [AddStepRow (displayName r)]
               (emit [ClearSteps; HideError;
                      SetStatus (JStr "Running connection checks...")]
                  (emit [CloseOverlay; GoToPage "page_initializing"]
                     (mkState g m tok st0 true true (Some stored) [] l))))))).
  { subst s1. reflexivity. }
  rewrite E1. clear E1 s1.
  match goal with
  | |- context [run (repeat (TimerFires 1) ?n) (displayNext stored 1 ?sc)] =>
      change (repeat (TimerFires 1) n) with (own_timers sc n);
      rewrite (replay_from stored rest 1 sc) by reflexivity
  end.
  rewrite (launch_from_timer _ written started v) by (auto; reflexivity).
  cbn [log pending flags initStarted initReady initSuccess emit push
       set_pending rfidTag selectedGameId].
  repeat split.
  - unfold replay_actions. cbn [flat_map step_actions success results stored].
    rewrite <- !app_assoc. reflexivity.
  - unfold launches. cbn [log emit set_pending].
    rewrite !count_app.
    assert (Z0 : forall xs, count is_write_token (flat_map step_actions xs) = 0).
    { induction xs as [|x xs IH]; [reflexivity|exact IH]. }
    rewrite Z0. unfold final_actions.
    destruct (negb (success stored)); cbn; lia.
Qed.

Lemma proceed_replays_then_launches_once_witness :
  launches
    (run (proceed_and_launch 2 NotJson (JObj [("success", JBool true)]))
       (run [CardClick (GNum 1); ConfirmClick;
             RequestCompletes 0 (Json resp_all_ok)] initial)) =
  launches (run [CardClick (GNum 1); ConfirmClick;
                 RequestCompletes 0 (Json resp_all_ok)] initial) + 1.
Proof.
  apply (proceed_replays_then_launches_once
           (run [CardClick (GNum 1); ConfirmClick;
                 RequestCompletes 0 (Json resp_all_ok)] initial)
           (mkStored [mkStep "Joystick Controller" true (JStr "");
                      mkStep "Nodes" true (JStr "");
                      mkStep "Drone" true (JStr "")] true)
           (mkStep "Joystick Controller" true (JStr ""))
           [mkStep "Nodes" true (JStr ""); mkStep "Drone" true (JStr "")]
           NotJson (JObj [("success", JBool true)]) (JBool true));
    try reflexivity.
  discriminate.
Defined.
